(** * clang-tidy/ClangTidy.cpp: reporting, fix application and check selection

    A shallow embedding of the orchestration code of [ClangTidy.cpp]:
    - [ErrorReporter] ([reportDiagnostic], [Finish]) and [handleErrors];
    - [ClangTidyASTConsumerFactory::getCheckersControlList] and
      [getCheckNames];
    - [AnalyzerDiagnosticConsumer::FlushDiagnosticsImpl];
    - [ClangTidyCheck::setName];
    - [ClangTidyASTConsumerFactory::CreateASTConsumer];
    and of [NamespaceCommentCheck.cpp]: [getNamespaceComment],
    [locationsInSameFile] and [NamespaceCommentCheck::check].

    Stateful C++ is written with explicit state passing: every member
    function takes the object (a record of its mutable fields) and returns
    the updated object.  What the file only calls into and clang's own
    libraries define ([Rewriter] and [tooling::Replacement::apply], the
    analyzer's path pieces) is an interface, given as a type class; the
    analyzer's checker table, the registered factories and the name filter
    are parameters of the functions that read them. *)

From Stdlib Require Import ZArith List String Ascii Bool Lia.
From Stdlib Require Import Sorting.Permutation Sorting.Sorted Sorting.Mergesort.
From Stdlib Require Import Structures.Orders Numbers.DecimalString.
Import ListNotations.

Local Open Scope string_scope.
Local Open Scope list_scope.
Local Open Scope Z_scope.

(* ================================================================== *)
(** ** Machine integers *)

(** The C++ type [unsigned] (32 bits): values are kept in [Z] and every
    arithmetic result is reduced modulo [2^32]. *)
Module unsigned.
Definition modulus : Z := 2 ^ 32.

Definition wrap (z : Z) : Z := z mod modulus.

(** [++x] *)
Definition incr (x : Z) : Z := wrap (x + 1).

(** [llvm::raw_ostream::operator<<(unsigned)]: decimal digits. *)
Definition to_string (x : Z) : string :=
  NilEmpty.string_of_uint (N.to_uint (Z.to_N x)).
End unsigned.

(* ================================================================== *)
(** ** Source locations, replacements and tidy errors *)

(** A [SourceLocation] is kept as the (file, byte offset) pair it denotes;
    the default-constructed, invalid location has an empty file name.
    Offsets and lengths are [unsigned] in the source; they are only carried
    around and added to locations here, in [Z]. *)
Record SourceLocation : Type := mkLoc {
  LocFile : string;
  LocOffset : Z
}.

Definition InvalidSourceLocation : SourceLocation := mkLoc "" 0.

Definition getLocWithOffset (L : SourceLocation) (Offset : Z) : SourceLocation :=
  mkLoc (LocFile L) (LocOffset L + Offset).

Definition SourceRange : Type := (SourceLocation * SourceLocation)%type.

(** [tooling::Replacement], through the accessors the reporter uses. *)
Record Replacement : Type := mkReplacement {
  getFilePath : string;
  getOffset : Z;
  getLength : Z;
  getReplacementText : string
}.

(** [ClangTidyMessage] *)
Record ClangTidyMessage : Type := mkMessage {
  Message : string;
  FilePath : string;
  FileOffset : Z
}.

Module DiagnosticsEngine.
Inductive Level : Type := Ignored | Note | Remark | Warning | Error | Fatal.

(** Diagnostic identifiers: the custom ones made by [getCustomDiagID]
    (level and format string) and the two built-in fix-it notes. *)
Inductive DiagID : Type :=
| CustomDiagID (L : Level) (FormatString : string)
| note_fixit_applied
| note_fixit_failed.

Record FixItHint : Type := CreateReplacement {
  RemoveRange : SourceRange;
  CodeToInsert : string
}.

(** One diagnostic as it leaves a [DiagnosticBuilder]: where, which id,
    the [<<]-streamed string arguments and the fix-it hints. *)
Record Diagnostic : Type := mkDiagnostic {
  DiagLoc : SourceLocation;
  ID : DiagID;
  Args : list string;
  FixItHints : list FixItHint
}.
End DiagnosticsEngine.
Import DiagnosticsEngine.

(** [ClangTidyError]; [Fix] is the replacement set in iteration order. *)
Record ClangTidyError : Type := mkError {
  CheckName : string;
  ErrorMessage : ClangTidyMessage;   (* field [Message] *)
  Fix : list Replacement;
  Notes : list ClangTidyMessage;
  DiagLevel : Level
}.

(* ================================================================== *)
(** ** ErrorReporter *)

(** clang's [Rewriter] (the edit buffers), the files on disk, and the
    members of [tooling::Replacement] and [Rewriter] that the reporter calls.
    They belong to clang's libraries, so the reporter is written against
    this interface.  [Replacement_apply] reads the disk and returns the
    success flag with the updated rewriter. *)
Class RewriterInterface : Type := {
  Rewriter : Type;
  FileSystem : Type;
  emptyRewriter : Rewriter;
  isApplicable : Replacement -> bool;
  Replacement_apply : FileSystem -> Replacement -> Rewriter -> bool * Rewriter;
  overwriteChangedFiles : Rewriter -> FileSystem -> FileSystem
}.

Section ErrorReporter.

Context {RI : RewriterInterface}.

(** The mutable members of the class; [Diags] is the sequence of
    diagnostics handed to the printer so far, oldest first. *)
Record ErrorReporter : Type := mkReporter {
  Diags : list Diagnostic;
  Rewrite : Rewriter;
  ApplyFixes : bool;
  TotalFixes : Z;
  AppliedFixes : Z
}.

(** [ErrorReporter(bool ApplyFixes)] *)
Definition newErrorReporter (ApplyFixes : bool) : ErrorReporter :=
  mkReporter [] emptyRewriter ApplyFixes 0 0.

Definition Report (D : Diagnostic) (R : ErrorReporter) : ErrorReporter :=
  mkReporter (Diags R ++ [D]) (Rewrite R) (ApplyFixes R)
             (TotalFixes R) (AppliedFixes R).

(** [getLocation(FilePath, Offset)]; the file table of the [SourceManager],
    which the call also fills, is not part of the model. *)
Definition getLocation (FilePath : string) (Offset : Z) : SourceLocation :=
  if (FilePath =? "")%string then InvalidSourceLocation
  else mkLoc FilePath Offset.

(** [reportNote] *)
Definition reportNote (Message0 : ClangTidyMessage) (R : ErrorReporter)
  : ErrorReporter :=
  let Loc := getLocation (FilePath Message0) (FileOffset Message0) in
  Report (mkDiagnostic Loc (CustomDiagID Note "%0") [Message Message0] []) R.

(** The variables live across the [for (Fix : Error.Fix)] loop: the
    reporter, the hints streamed into the open [DiagnosticBuilder] and the
    local [FixLocations] vector. *)
Record FixLoop : Type := mkFixLoop {
  Reporter : ErrorReporter;
  Hints : list FixItHint;
  FixLocations : list (SourceLocation * bool)
}.

(** The files as they are on disk while the errors are reported. *)
Variable Disk : FileSystem.

(** The expression [Fix.isApplicable() && Fix.apply(Rewrite)]: [apply]
    is not called on a replacement that is not applicable. *)
Definition attempt (Fix0 : Replacement) (RW : Rewriter) : bool * Rewriter :=
  if isApplicable Fix0 then Replacement_apply Disk Fix0 RW else (false, RW).

(** One iteration of the loop over [Error.Fix]. *)
Definition fixStep (S : FixLoop) (Fix0 : Replacement) : FixLoop :=
  let R := Reporter S in
  let FixLoc := getLocation (getFilePath Fix0) (getOffset Fix0) in
  let FixEndLoc := getLocWithOffset FixLoc (getLength Fix0) in
  let Hints' :=
    Hints S ++ [CreateReplacement (FixLoc, FixEndLoc) (getReplacementText Fix0)] in
  let Total' := unsigned.incr (TotalFixes R) in
  if ApplyFixes R then
    let '(Success, Rewrite') := attempt Fix0 (Rewrite R) in
    let Applied' :=
      if Success then unsigned.incr (AppliedFixes R) else AppliedFixes R in
    mkFixLoop (mkReporter (Diags R) Rewrite' (ApplyFixes R) Total' Applied')
              Hints' (FixLocations S ++ [(FixLoc, Success)])
  else
    mkFixLoop (mkReporter (Diags R) (Rewrite R) (ApplyFixes R) Total'
                          (AppliedFixes R))
              Hints' (FixLocations S).

(** The note reported for one entry of [FixLocations]. *)
Definition fixNote (F : SourceLocation * bool) : Diagnostic :=
  mkDiagnostic (fst F)
               (if snd F then note_fixit_applied else note_fixit_failed)
               [] [].

(** [reportDiagnostic]: the main diagnostic leaves its builder when the
    inner block closes, after the loop; the fix-it notes and the error's
    own notes follow. *)
Definition reportDiagnostic (Error0 : ClangTidyError) (R : ErrorReporter)
  : ErrorReporter :=
  let Message0 := ErrorMessage Error0 in
  let Loc := getLocation (FilePath Message0) (FileOffset Message0) in
  let S := fold_left fixStep (Fix Error0) (mkFixLoop R [] []) in
  let R1 :=
    Report (mkDiagnostic Loc (CustomDiagID (DiagLevel Error0) "%0 [%1]")
                         [Message Message0; CheckName Error0] (Hints S))
           (Reporter S) in
  let R2 := fold_left (fun r F => Report (fixNote F) r) (FixLocations S) R1 in
  fold_left (fun r N => reportNote N r) (Notes Error0) R2.

(** What a run leaves outside the reporter: the text written to
    [llvm::errs()] and the files. *)
Record Process : Type := mkProcess {
  errs : string;
  Files : FileSystem
}.

Definition summaryLine (R : ErrorReporter) : string :=
  ("clang-tidy applied " ++ unsigned.to_string (AppliedFixes R) ++ " of "
     ++ unsigned.to_string (TotalFixes R) ++ " suggested fixes."
     ++ String "010" "")%string.

(** [Finish] *)
Definition Finish (R : ErrorReporter) (P : Process) : Process :=
  if ApplyFixes R && (0 <? TotalFixes R) then
    mkProcess (errs P ++ summaryLine R)%string
              (overwriteChangedFiles (Rewrite R) (Files P))
  else P.

(** The loop of [handleErrors] over the errors. *)
Definition reportAll (Errors : list ClangTidyError) (R : ErrorReporter)
  : ErrorReporter :=
  fold_left (fun r E => reportDiagnostic E r) Errors R.

(** [handleErrors(Errors, Fix)], started with [errs0] already written to
    [llvm::errs()]: the reporter as it is destroyed, and the process. *)
Definition handleErrors (Errors : list ClangTidyError) (Fix0 : bool)
           (errs0 : string) : ErrorReporter * Process :=
  let R := reportAll Errors (newErrorReporter Fix0) in
  (R, Finish R (mkProcess errs0 Disk)).

End ErrorReporter.

Arguments ErrorReporter {RI}.
Arguments FixLoop {RI}.
Arguments Process {RI}.

(* ================================================================== *)
(** ** Check names and the static analyzer's checkers *)

Definition AnalyzerCheckNamePrefix : string := "clang-analyzer-".

(** [StringRef::startswith] *)
Definition startswith (S Prefix : string) : bool := String.prefix Prefix S.

(** [ChecksFilter], seen through its only member used here,
    [isCheckEnabled]: the class itself lives in
    [ClangTidyDiagnosticConsumer.h]. *)
Definition ChecksFilter : Type := string -> bool.

Definition isCheckEnabled (Filter : ChecksFilter) (Name : string) : bool :=
  Filter Name.

Definition CheckersList : Type := list (string * bool).

(** [std::sort] on a [std::vector<std::string>]: [operator<] on
    [std::string] compares byte by byte, which is [String.leb]'s order; the
    sorted arrangement of a list of strings is unique, so the algorithm
    behind [std::sort] does not show. *)
Module StringOrder <: TotalLeBool.
Definition t : Type := string.
Definition leb : t -> t -> bool := String.leb.
Theorem leb_total : forall a1 a2, leb a1 a2 = true \/ leb a2 a1 = true.
Proof. exact String.leb_total. Qed.
End StringOrder.

Module StringSort := Sort StringOrder.

Section CheckSelection.

(** The table [StaticAnalyzerChecks], filled from the analyzer's
    [Checkers.inc], in table order. *)
Variable StaticAnalyzerChecks : list string.

(** The loop that computes [AnalyzerChecksEnabled]. *)
Definition AnalyzerChecksEnabled (Filter : ChecksFilter) : bool :=
  fold_left
    (fun (Enabled : bool) (CheckName0 : string) =>
       let Checker := (AnalyzerCheckNamePrefix ++ CheckName0)%string in
       Enabled
       || (negb (startswith CheckName0 "debug")
           && isCheckEnabled Filter Checker))
    StaticAnalyzerChecks false.

(** [ClangTidyASTConsumerFactory::getCheckersControlList] *)
Definition getCheckersControlList (Filter : ChecksFilter) : CheckersList :=
  if AnalyzerChecksEnabled Filter then
    fold_left
      (fun (List0 : CheckersList) (CheckName0 : string) =>
         let Checker := (AnalyzerCheckNamePrefix ++ CheckName0)%string in
         if startswith CheckName0 "core"
            || (negb (startswith CheckName0 "debug")
                && isCheckEnabled Filter Checker)
         then List0 ++ [(CheckName0, true)]
         else List0)
      StaticAnalyzerChecks []
  else [].

(** The registered factories, [name -> factory], in the iteration order
    of [ClangTidyCheckFactories]. *)
Variable CheckFactoryBase : Type.
Variable CheckFactories : list (string * CheckFactoryBase).

(** [ClangTidyASTConsumerFactory::getCheckNames] *)
Definition getCheckNames (Filter : ChecksFilter) : list string :=
  let CheckNames1 :=
    fold_left
      (fun (CheckNames : list string) (CheckFactory : string * CheckFactoryBase) =>
         if isCheckEnabled Filter (fst CheckFactory)
         then CheckNames ++ [fst CheckFactory]
         else CheckNames)
      CheckFactories [] in
  let CheckNames2 :=
    fold_left
      (fun (CheckNames : list string) (AnalyzerCheck : string * bool) =>
         CheckNames ++ [(AnalyzerCheckNamePrefix ++ fst AnalyzerCheck)%string])
      (getCheckersControlList Filter) CheckNames1 in
  StringSort.sort CheckNames2.

End CheckSelection.

(* ================================================================== *)
(** ** AnalyzerDiagnosticConsumer *)

Module ento.
(** A path piece, through [getLocation().asLocation()], [getString()]
    and [getRanges()]. *)
Record PathDiagnosticPiece : Type := mkPiece {
  PieceLocation : SourceLocation;
  getString : string;
  getRanges : list SourceRange
}.

(** [PathPieces] with the two members used: [back()] (undefined on an
    empty path, hence [None]) and [flatten(ShouldFlattenMacros)]. *)
Class PathPiecesInterface : Type := {
  PathPieces : Type;
  back : PathPieces -> option PathDiagnosticPiece;
  flatten : PathPieces -> bool -> list PathDiagnosticPiece
}.

Record PathDiagnostic {PI : PathPiecesInterface} : Type := mkPathDiagnostic {
  getCheckName : string;
  getLocation : SourceLocation;
  getShortDescription : string;
  path : PathPieces
}.
End ento.

(** One diagnostic as [ClangTidyContext::diag] hands it on, with the source
    ranges streamed into its builder. *)
Record TidyDiagnostic : Type := mkTidyDiagnostic {
  TidyCheckName : string;
  TidyLoc : SourceLocation;
  Description : string;
  TidyLevel : Level;
  Ranges : list SourceRange
}.

(** The part of [ClangTidyContext] that [diag] changes: the diagnostics
    reported so far, oldest first. *)
Definition ClangTidyContext : Type := list TidyDiagnostic.

(** Modelled from the spec: [ClangTidyContext::diag] is declared and defined
    in [ClangTidyDiagnosticConsumer.h/.cpp], outside the source tree.  The
    spec's [report(checkName, location, text, level)] starts a new diagnostic
    with the given check name, location, text and level; the ranges streamed
    into the returned builder belong to it, and it is handed on when the
    builder goes out of scope. *)
Definition diag (CheckName0 : string) (Loc : SourceLocation)
           (Description0 : string) (Level0 : Level)
           (Ranges0 : list SourceRange) (Context : ClangTidyContext)
  : ClangTidyContext :=
  Context ++ [mkTidyDiagnostic CheckName0 Loc Description0 Level0 Ranges0].

(** Modelled from the spec: the default argument of [diag]'s [Level]
    parameter is part of its declaration, outside the source tree; the
    spec gives the primary analyzer diagnostic the severity Warning. *)
Definition diag_default_Level : Level := Warning.

Section AnalyzerDiagnosticConsumer.

Context {PI : ento.PathPiecesInterface}.

(** The body of the loop over [Diags]. *)
Definition flushOne (Context : ClangTidyContext) (PD : ento.PathDiagnostic)
  : option ClangTidyContext :=
  let CheckName0 := (AnalyzerCheckNamePrefix ++ ento.getCheckName PD)%string in
  match ento.back (ento.path PD) with
  | None => None
  | Some Last =>
      let Context1 :=
        diag CheckName0 (ento.getLocation PD) (ento.getShortDescription PD)
             diag_default_Level (ento.getRanges Last) Context in
      Some (fold_left
              (fun C DiagPiece =>
                 diag CheckName0 (ento.PieceLocation DiagPiece)
                      (ento.getString DiagPiece) Note
                      (ento.getRanges DiagPiece) C)
              (ento.flatten (ento.path PD) true) Context1)
  end.

(** [FlushDiagnosticsImpl]; [None] when [path.back()] is taken of an
    empty path. *)
Fixpoint FlushDiagnosticsImpl (Diags0 : list ento.PathDiagnostic)
         (Context : ClangTidyContext) : option ClangTidyContext :=
  match Diags0 with
  | [] => Some Context
  | PD :: Rest =>
      match flushOne Context PD with
      | None => None
      | Some Context' => FlushDiagnosticsImpl Rest Context'
      end
  end.

End AnalyzerDiagnosticConsumer.

(* ================================================================== *)
(** ** ClangTidyCheck *)

Module ClangTidyCheck.
(** The member [CheckName] of a check; the other members are not touched
    by [setName]. *)
Record t : Type := mk { CheckName : string }.

(** The result of a call guarded by [assert]. *)
Inductive result (A : Type) : Type :=
| Ok (a : A)
| AssertionFailed.
Arguments Ok {A} a.
Arguments AssertionFailed {A}.

(** [ClangTidyCheck::setName] *)
Definition setName (Name : string) (C : t) : result t :=
  if (CheckName C =? "")%string then Ok (mk Name) else AssertionFailed.

(** Successive calls of [setName] on one instance; a failed assertion
    ends the program. *)
Fixpoint setNames (Names : list string) (C : t) : result t :=
  match Names with
  | [] => Ok C
  | Name :: Names' =>
      match setName Name C with
      | Ok C' => setNames Names' C'
      | AssertionFailed => AssertionFailed
      end
  end.
End ClangTidyCheck.

(* ================================================================== *)
(** ** A name filter and a rewriter to run the code on *)

Module NameFilter.
(** Modelled from the spec: the Name Filter ([ChecksFilter], in
    [ClangTidyDiagnosticConsumer.h/.cpp]) is outside the source tree.  The
    spec's Filter Rule List is an ordered sequence of glob patterns, each
    tagged enable or disable; the last rule whose glob matches the name
    decides, and when no rule matches the default does.  Globs match
    case-sensitively and [*] stands for any substring. *)
Record Rule : Type := mkRule {
  Enable : bool;
  Glob : string
}.

Fixpoint globMatch (Pattern : string) : string -> bool :=
  match Pattern with
  | EmptyString => fun Name => (Name =? "")%string
  | String c Pattern' =>
      if (c =? "*")%char then
        fix star (Name : string) : bool :=
          globMatch Pattern' Name
          || match Name with
             | EmptyString => false
             | String _ Name' => star Name'
             end
      else
        fun Name =>
          match Name with
          | EmptyString => false
          | String d Name' => (c =? d)%char && globMatch Pattern' Name'
          end
  end.

Definition isEnabled (Rules : list Rule) (Default : bool) : ChecksFilter :=
  fun Name =>
    fold_left
      (fun (Verdict : bool) (R : Rule) =>
         if globMatch (Glob R) Name then Enable R else Verdict)
      Rules Default.
End NameFilter.

Module TextRewriter.
(** A rewriter over files held as (path, content) pairs.  It keeps the
    contract of clang's [tooling::Replacement]: a replacement is applicable
    unless its path is the invalid-location marker (the empty path), and
    [apply] refuses an edit only when its file cannot be opened; an accepted
    edit is recorded, and ranges are never compared with those of earlier
    edits.  [overwriteChangedFiles] writes every file with its recorded
    edits carried out, each at its original offset shifted by the size
    changes of the earlier edits that start before it. *)
Definition FileSystem : Type := list (string * string).

Fixpoint readFile (FS : FileSystem) (Path : string) : option string :=
  match FS with
  | [] => None
  | (P, Content) :: FS' =>
      if (P =? Path)%string then Some Content else readFile FS' Path
  end.

(** The accepted edits, oldest first. *)
Definition Rewriter : Type := list Replacement.

Definition InvalidLocation : string := "".

Definition isApplicable (R : Replacement) : bool :=
  negb (getFilePath R =? InvalidLocation)%string.

Definition apply (FS : FileSystem) (R : Replacement) (RW : Rewriter)
  : bool * Rewriter :=
  match readFile FS (getFilePath R) with
  | None => (false, RW)
  | Some _ => (true, RW ++ [R])
  end.

Definition delta (R : Replacement) : Z :=
  Z.of_nat (String.length (getReplacementText R)) - getLength R.

(** The offset in the edited buffer of the original offset [Orig]. *)
Definition mappedOffset (Done : list Replacement) (Orig : Z) : Z :=
  fold_left
    (fun (Acc : Z) (D : Replacement) =>
       if getOffset D <? Orig then Acc + delta D else Acc)
    Done Orig.

Definition replaceText (Buffer : string) (Real Len : nat) (New : string)
  : string :=
  (substring 0 Real Buffer ++ New
     ++ substring (Real + Len) (String.length Buffer - (Real + Len)) Buffer)%string.

Fixpoint rewriteBuffer (Done Todo : list Replacement) (Buffer : string)
  : string :=
  match Todo with
  | [] => Buffer
  | R :: Todo' =>
      rewriteBuffer (Done ++ [R]) Todo'
        (replaceText Buffer (Z.to_nat (mappedOffset Done (getOffset R)))
                     (Z.to_nat (getLength R)) (getReplacementText R))
  end.

Definition editsOf (Path : string) (RW : Rewriter) : list Replacement :=
  filter (fun R => (getFilePath R =? Path)%string) RW.

Definition overwriteChangedFiles (RW : Rewriter) (FS : FileSystem)
  : FileSystem :=
  map (fun F => (fst F, rewriteBuffer [] (editsOf (fst F) RW) (snd F))) FS.

#[export] Instance Interface : RewriterInterface :=
  Build_RewriterInterface Rewriter FileSystem [] isApplicable apply
                          overwriteChangedFiles.
End TextRewriter.

(* ================================================================== *)
(** ** Vocabulary of the properties *)

Section ReporterVocabulary.

Context {RI : RewriterInterface}.
Variable Disk : FileSystem.

(** Every replacement of a run, in the order the reporter meets them. *)
Definition allFixes (Errors : list ClangTidyError) : list Replacement :=
  flat_map Fix Errors.

(** The success flags of a sequence of edits attempted one after the
    other, and the rewriter they leave. *)
Fixpoint attempts (Fixes : list Replacement) (RW : Rewriter)
  : list bool * Rewriter :=
  match Fixes with
  | [] => ([], RW)
  | F :: Fixes' =>
      let (ok, RW1) := attempt Disk F RW in
      let (oks, RW2) := attempts Fixes' RW1 in
      (ok :: oks, RW2)
  end.

Definition outcomes (Fixes : list Replacement) (RW : Rewriter) : list bool :=
  fst (attempts Fixes RW).

End ReporterVocabulary.

(** Where an edit starts and ends. *)
Definition FixLoc (F : Replacement) : SourceLocation :=
  getLocation (getFilePath F) (getOffset F).

Definition FixEndLoc (F : Replacement) : SourceLocation :=
  getLocWithOffset (FixLoc F) (getLength F).

Definition hintOf (F : Replacement) : FixItHint :=
  CreateReplacement (FixLoc F, FixEndLoc F) (getReplacementText F).

(** The main diagnostic of an error and the diagnostic of one of its notes. *)
Definition mainDiagnostic (E : ClangTidyError) : Diagnostic :=
  mkDiagnostic
    (getLocation (FilePath (ErrorMessage E)) (FileOffset (ErrorMessage E)))
    (CustomDiagID (DiagLevel E) "%0 [%1]")
    [Message (ErrorMessage E); CheckName E]
    (map hintOf (Fix E)).

Definition noteDiagnostic (N : ClangTidyMessage) : Diagnostic :=
  mkDiagnostic (getLocation (FilePath N) (FileOffset N))
               (CustomDiagID Note "%0") [Message N] [].

Definition statusID (ok : bool) : DiagID :=
  if ok then note_fixit_applied else note_fixit_failed.

(** The fix-it notes that follow the main diagnostic of [E]. *)
Definition fixNotesFor {RI : RewriterInterface} (Disk : FileSystem)
           (E : ClangTidyError) (R : ErrorReporter) : list Diagnostic :=
  if ApplyFixes R
  then map fixNote (combine (map FixLoc (Fix E))
                            (outcomes Disk (Fix E) (Rewrite R)))
  else [].

(** The companion notes of fix application among reported diagnostics. *)
Definition isFixNote (D : Diagnostic) : bool :=
  match ID D with
  | note_fixit_applied | note_fixit_failed => true
  | CustomDiagID _ _ => false
  end.

Definition isAppliedNote (D : Diagnostic) : bool :=
  match ID D with
  | note_fixit_applied => true
  | _ => false
  end.

Definition fixStatusNotes (Ds : list Diagnostic) : list Diagnostic :=
  filter isFixNote Ds.

(** The spec's conflict of two replacements: same file and overlapping
    ranges [[start, start+length)]. *)
Definition conflict (A B : Replacement) : bool :=
  (getFilePath A =? getFilePath B)%string
  && (getOffset A <? getOffset B + getLength B)
  && (getOffset B <? getOffset A + getLength A).

Definition count_true (l : list bool) : nat :=
  List.length (filter (fun b => b) l).

(** The ledger of a reporter. *)
Definition ledger {RI : RewriterInterface} (R : ErrorReporter) : Z * Z :=
  (TotalFixes R, AppliedFixes R).

(** The name filter's verdict on an analyzer checker that is not a debug
    checker. *)
Definition passesAsAnalyzerCheck (Filter : ChecksFilter) (Name : string) : bool :=
  negb (startswith Name "debug")
  && isCheckEnabled Filter (AnalyzerCheckNamePrefix ++ Name)%string.

Definition string_le (a b : string) : Prop := String.leb a b = true.

(** Paths without nested call or macro pieces: [std::list] of pieces, its
    own flattening. *)
Module FlatPath.
#[export] Instance Interface : ento.PathPiecesInterface :=
  ento.Build_PathPiecesInterface
    (list ento.PathDiagnosticPiece)
    (fun P => last (map Some P) None)
    (fun P _ => P).
End FlatPath.

(** The primary diagnostic and the note of a path piece. *)
Definition primaryOf {PI : ento.PathPiecesInterface} (PD : ento.PathDiagnostic)
           (D : TidyDiagnostic) : Prop :=
  TidyCheckName D = (AnalyzerCheckNamePrefix ++ ento.getCheckName PD)%string
  /\ TidyLoc D = ento.getLocation PD
  /\ Description D = ento.getShortDescription PD
  /\ TidyLevel D = Warning.

Definition noteOf (Name : string) (Piece : ento.PathDiagnosticPiece)
           (D : TidyDiagnostic) : Prop :=
  TidyCheckName D = Name
  /\ TidyLoc D = ento.PieceLocation Piece
  /\ Description D = ento.getString Piece
  /\ TidyLevel D = Note.

(* ================================================================== *)
(** ** Runs used as examples *)

Module Scenario.
Import TextRewriter.

Definition fileA : string := "a.cpp".

Definition disk : FileSystem :=
  [(fileA, "namespace n {int x;}0123456789abcdefghij")].

(** The spec's first-seen-wins pair: ranges [[10,20)] and [[15,25)]. *)
Definition R1 : Replacement := mkReplacement fileA 10 10 "XX".
Definition R2 : Replacement := mkReplacement fileA 15 10 "YYY".

Definition D1 : ClangTidyError :=
  mkError "misc-one" (mkMessage "first finding" fileA 10) [R1] [] Warning.
Definition D2 : ClangTidyError :=
  mkError "misc-two" (mkMessage "second finding" fileA 15) [R2]
          [mkMessage "declared here" fileA 3] Warning.

(** A replacement in a file that does not exist. *)
Definition R3 : Replacement := mkReplacement "missing.cpp" 0 1 "".
Definition D3 : ClangTidyError :=
  mkError "misc-three" (mkMessage "third finding" "missing.cpp" 0) [R3] []
          Warning.

Definition run (Errors : list ClangTidyError) (Fix0 : bool)
  : ErrorReporter * Process :=
  handleErrors (RI := Interface) disk Errors Fix0 "".

(** An excerpt of the analyzer's checker table. *)
Definition checkers : list string :=
  ["core.NullDereference"; "debug.DumpCFG"; "unix.Malloc"].

Definition factories : list (string * unit) :=
  [("google-explicit-constructor", tt); ("misc-use-override", tt)].

Definition onlyUnix : ChecksFilter :=
  NameFilter.isEnabled
    [NameFilter.mkRule false "*"; NameFilter.mkRule true "clang-analyzer-unix.*"]
    true.

Definition onlyDebug : ChecksFilter :=
  NameFilter.isEnabled
    [NameFilter.mkRule false "*"; NameFilter.mkRule true "clang-analyzer-debug.*"]
    true.

Definition everything : ChecksFilter :=
  NameFilter.isEnabled [NameFilter.mkRule true "*"] true.

Definition step1 : ento.PathDiagnosticPiece :=
  ento.mkPiece (mkLoc fileA 4) "Value assigned to 'p'" [].
Definition step2 : ento.PathDiagnosticPiece :=
  ento.mkPiece (mkLoc fileA 9) "Dereference of null pointer" [].

Definition finding : ento.PathDiagnostic (PI := FlatPath.Interface) :=
  ento.mkPathDiagnostic FlatPath.Interface "core.NullDereference" (mkLoc fileA 9)
                        "Dereference of null pointer" [step1; step2].
End Scenario.

(* ================================================================== *)
(** ** Vocabulary of the further properties of the reporter *)

(** The same interface, whose rewriter also records, oldest first, the
    replacements on which [apply] was called. *)
Definition Logged (RI : RewriterInterface) : RewriterInterface :=
  Build_RewriterInterface
    (@Rewriter RI * list Replacement)%type
    (@FileSystem RI)
    (@emptyRewriter RI, [])
    (@isApplicable RI)
    (fun FS F RW =>
       let (ok, RW') := @Replacement_apply RI FS F (fst RW) in
       (ok, (RW', snd RW ++ [F])))
    (fun RW FS => @overwriteChangedFiles RI (fst RW) FS).

Definition isFailedNote (D : Diagnostic) : bool :=
  match ID D with
  | note_fixit_failed => true
  | _ => false
  end.


(* ================================================================== *)
(** ** ClangTidyASTConsumerFactory::CreateASTConsumer *)

(** [llvm::StringMap<std::string>], by what a lookup answers;
    [Map[Key] = Value] inserts or overwrites. *)
Definition StringMap : Type := string -> option string.

Definition StringMap_assign (Map : StringMap) (Key Value : string) : StringMap :=
  fun K => if (K =? Key)%string then Some Value else Map K.

Section CreateASTConsumer.

(** The analyzer's checker table, the two enumerations of the analyzer's
    options with the values the function assigns, and
    [ClangTidyCheckFactories::createChecks], which is defined in
    [ClangTidyModule.cpp]. *)
Variable StaticAnalyzerChecks : list string.
Variable AnalysisStores : Type.
Variable AnalysisDiagClients : Type.
Variable RegionStoreModel : AnalysisStores.
Variable PD_NONE : AnalysisDiagClients.
Variable createChecks : ChecksFilter -> list ClangTidyCheck.t.

(** The members of [AnalyzerOptions] that the function writes. *)
Record AnalyzerOptions : Type := mkAnalyzerOptions {
  Config : StringMap;
  CheckersControlList : CheckersList;
  AnalysisStoreOpt : AnalysisStores;
  AnalysisDiagOpt : AnalysisDiagClients;
  AnalyzeNestedBlocks : bool;
  eagerlyAssumeBinOpBifurcation : bool
}.

(** The consumers the function can create: the match finder's, with the
    checks that registered their matchers with the finder, and the
    analyzer's, with the names ([getName()]) of the diagnostic consumers
    added to it. *)
Inductive ASTConsumer : Type :=
| MatchFinderConsumer (Registered : list ClangTidyCheck.t)
| AnalysisASTConsumer (DiagnosticConsumers : list string).

(** [AnalyzerDiagnosticConsumer::getName] *)
Definition AnalyzerDiagnosticConsumer_getName : string := "ClangTidyDiags".

Record ClangTidyASTConsumer : Type := mkASTConsumer {
  Consumers : list ASTConsumer;
  Finder : list ClangTidyCheck.t;
  Checks : list ClangTidyCheck.t
}.

(** [CreateASTConsumer], from the filter of the context, its option
    [AnalyzeTemporaryDtors] and the compiler's analyzer options: the
    consumer returned and the analyzer options as the function leaves
    them.  The calls that only hand the context, the source manager, the
    current file and the preprocessor callbacks to other objects
    ([setSourceManager], [setCurrentFile], [setContext],
    [registerPPCallbacks]) leave no trace in these two values; of
    [registerMatchers] the finder keeps the checks in the order they
    registered. *)
Definition CreateASTConsumer (Filter : ChecksFilter)
           (AnalyzeTemporaryDtors : bool) (Opts : AnalyzerOptions)
  : ClangTidyASTConsumer * AnalyzerOptions :=
  let Checks0 := createChecks Filter in
  let Finder0 :=
    fold_left (fun (F : list ClangTidyCheck.t) Check => F ++ [Check])
              Checks0 [] in
  let Consumers1 :=
    if match Checks0 with [] => true | _ => false end then []
    else [MatchFinderConsumer Finder0] in
  let Opts1 :=
    mkAnalyzerOptions
      (StringMap_assign (Config Opts) "cfg-temporary-dtors"
                        (if AnalyzeTemporaryDtors then "true" else "false"))
      (getCheckersControlList StaticAnalyzerChecks Filter)
      (AnalysisStoreOpt Opts) (AnalysisDiagOpt Opts)
      (AnalyzeNestedBlocks Opts) (eagerlyAssumeBinOpBifurcation Opts) in
  if match CheckersControlList Opts1 with [] => true | _ => false end then
    (mkASTConsumer Consumers1 Finder0 Checks0, Opts1)
  else
    let Opts2 :=
      mkAnalyzerOptions (Config Opts1) (CheckersControlList Opts1)
                        RegionStoreModel PD_NONE true true in
    (mkASTConsumer
       (Consumers1 ++ [AnalysisASTConsumer [AnalyzerDiagnosticConsumer_getName]])
       Finder0 Checks0,
     Opts2).

End CreateASTConsumer.

Arguments Config {AnalysisStores AnalysisDiagClients}.
Arguments CheckersControlList {AnalysisStores AnalysisDiagClients}.
Arguments AnalysisStoreOpt {AnalysisStores AnalysisDiagClients}.
Arguments AnalysisDiagOpt {AnalysisStores AnalysisDiagClients}.
Arguments AnalyzeNestedBlocks {AnalysisStores AnalysisDiagClients}.
Arguments eagerlyAssumeBinOpBifurcation {AnalysisStores AnalysisDiagClients}.

Definition isMatchFinderConsumer (C : ASTConsumer) : bool :=
  match C with
  | MatchFinderConsumer _ => true
  | AnalysisASTConsumer _ => false
  end.

(* ================================================================== *)
(** ** Regular expressions *)

(** A matcher for the fragment of POSIX extended regular expressions that
    [NamespaceCommentCheck] uses (characters, bracket lists of characters
    and ranges, groups, alternation, [*], [+], [?], [^] and [$]), standing
    for [llvm::Regex].  A pattern is compiled from its text; matching is by
    backtracking and reports, for each group, the text it matched last.  On
    whether a pattern matches the matcher agrees with any other; the groups
    are those of [llvm::Regex] whenever the pattern can match the text in
    one way only. *)
Module Regex.
Local Open Scope nat_scope.

Inductive regex : Type :=
| Char (c : ascii)
| Bracket (Ranges : list (ascii * ascii))
| Cat (r1 r2 : regex)
| Alt (r1 r2 : regex)
| Opt (r : regex)
| Star (r : regex)
| Plus (r : regex)
| Group (Index : nat) (r : regex)
| Bol
| Eol.

(** *** Compiling a pattern *)

Definition isPostfix (c : ascii) : bool :=
  ((c =? "*") || (c =? "+") || (c =? "?"))%char.

Fixpoint parsePostfix (r : regex) (s : list ascii) : regex * list ascii :=
  match s with
  | c :: s' =>
      if (c =? "*")%char then parsePostfix (Star r) s'
      else if (c =? "+")%char then parsePostfix (Plus r) s'
      else if (c =? "?")%char then parsePostfix (Opt r) s'
      else (r, s)
  | [] => (r, s)
  end.

Fixpoint parseBracket (s : list ascii) (Ranges : list (ascii * ascii))
  : option (list (ascii * ascii) * list ascii) :=
  match s with
  | [] => None
  | c :: s1 =>
      if (c =? "]")%char then Some (Ranges, s1)
      else
        match s1 with
        | d :: e :: s3 =>
            if ((d =? "-") && negb (e =? "]"))%char
            then parseBracket s3 (Ranges ++ [(c, e)])
            else parseBracket s1 (Ranges ++ [(c, c)])
        | _ => parseBracket s1 (Ranges ++ [(c, c)])
        end
  end.

Fixpoint parseAlt (fuel : nat) (s : list ascii) (n : nat)
  : option (regex * list ascii * nat) :=
  match fuel with
  | O => None
  | S fuel' =>
      match parseCat fuel' s n with
      | Some (r1, s1, n1) =>
          match s1 with
          | c :: s2 =>
              if (c =? "|")%char then
                match parseAlt fuel' s2 n1 with
                | Some (r2, s3, n2) => Some (Alt r1 r2, s3, n2)
                | None => None
                end
              else Some (r1, s1, n1)
          | [] => Some (r1, s1, n1)
          end
      | None => None
      end
  end
with parseCat (fuel : nat) (s : list ascii) (n : nat)
  : option (regex * list ascii * nat) :=
  match fuel with
  | O => None
  | S fuel' =>
      match parseAtom fuel' s n with
      | Some (r0, s0, n1) =>
          let (r1, s1) := parsePostfix r0 s0 in
          match s1 with
          | [] => Some (r1, s1, n1)
          | c :: _ =>
              if ((c =? "|") || (c =? ")"))%char then Some (r1, s1, n1)
              else
                match parseCat fuel' s1 n1 with
                | Some (r2, s2, n2) => Some (Cat r1 r2, s2, n2)
                | None => None
                end
          end
      | None => None
      end
  end
with parseAtom (fuel : nat) (s : list ascii) (n : nat)
  : option (regex * list ascii * nat) :=
  match fuel with
  | O => None
  | S fuel' =>
      match s with
      | [] => None
      | c :: s1 =>
          if (c =? "(")%char then
            match parseAlt fuel' s1 (S n) with
            | Some (r, d :: s2, n1) =>
                if (d =? ")")%char then Some (Group n r, s2, n1) else None
            | _ => None
            end
          else if (c =? "[")%char then
            match s1 with
            | d :: _ =>
                if (d =? "^")%char then None
                else
                  match parseBracket s1 [] with
                  | Some (Ranges, s2) => Some (Bracket Ranges, s2, n)
                  | None => None
                  end
            | [] => None
            end
          else if (c =? "^")%char then Some (Bol, s1, n)
          else if (c =? "$")%char then Some (Eol, s1, n)
          else if (c =? "\")%char then
            match s1 with
            | d :: s2 => Some (Char d, s2, n)
            | [] => None
            end
          else if isPostfix c || (c =? ")")%char || (c =? "|")%char
                  || (c =? ".")%char || (c =? "{")%char
          then None
          else Some (Char c, s1, n)
      end
  end.

(** The compiled pattern and its number of parenthesised groups; [None] for
    what is not a pattern of the fragment above. *)
Definition compile (Pattern : string) : option (regex * nat) :=
  let s := list_ascii_of_string Pattern in
  match parseAlt (3 * List.length s + 3) s 1 with
  | Some (r, [], n) => Some (r, Nat.pred n)
  | _ => None
  end.

(** *** Matching *)

Definition toLower (c : ascii) : ascii :=
  let n := nat_of_ascii c in
  if (65 <=? n)%nat && (n <=? 90)%nat then ascii_of_nat (n + 32) else c.

Definition toUpper (c : ascii) : ascii :=
  let n := nat_of_ascii c in
  if (97 <=? n)%nat && (n <=? 122)%nat then ascii_of_nat (n - 32) else c.

Definition sameChar (IgnoreCase : bool) (a b : ascii) : bool :=
  if IgnoreCase then (toLower a =? toLower b)%char else (a =? b)%char.

Definition inRange (lo hi c : ascii) : bool :=
  (nat_of_ascii lo <=? nat_of_ascii c)%nat
  && (nat_of_ascii c <=? nat_of_ascii hi)%nat.

Definition inBracket (IgnoreCase : bool) (Ranges : list (ascii * ascii))
           (c : ascii) : bool :=
  existsb (fun R =>
             inRange (fst R) (snd R) c
             || (IgnoreCase
                 && (inRange (fst R) (snd R) (toLower c)
                     || inRange (fst R) (snd R) (toUpper c))))
          Ranges.

Definition Captures : Type := list (nat * string).

Definition Continuation : Type :=
  list ascii -> nat -> Captures -> option Captures.

Definition loop (step : Continuation -> Continuation) (k : Continuation)
  : nat -> Continuation :=
  fix star (fuel : nat) : Continuation :=
    fun s pos caps =>
      match fuel with
      | O => k s pos caps
      | S fuel' =>
          match step (fun s' pos' caps' =>
                        if (pos <? pos')%nat then star fuel' s' pos' caps'
                        else None)
                     s pos caps with
          | Some res => Some res
          | None => k s pos caps
          end
      end.

Fixpoint run (IgnoreCase : bool) (r : regex) (k : Continuation)
  : Continuation :=
  match r with
  | Char c => fun s pos caps =>
      match s with
      | d :: s' => if sameChar IgnoreCase c d then k s' (S pos) caps else None
      | [] => None
      end
  | Bracket Ranges => fun s pos caps =>
      match s with
      | d :: s' =>
          if inBracket IgnoreCase Ranges d then k s' (S pos) caps else None
      | [] => None
      end
  | Cat r1 r2 => run IgnoreCase r1 (run IgnoreCase r2 k)
  | Alt r1 r2 => fun s pos caps =>
      match run IgnoreCase r1 k s pos caps with
      | Some res => Some res
      | None => run IgnoreCase r2 k s pos caps
      end
  | Opt r1 => fun s pos caps =>
      match run IgnoreCase r1 k s pos caps with
      | Some res => Some res
      | None => k s pos caps
      end
  | Star r1 => fun s pos caps =>
      loop (run IgnoreCase r1) k (List.length s) s pos caps
  | Plus r1 =>
      run IgnoreCase r1
          (fun s pos caps =>
             loop (run IgnoreCase r1) k (List.length s) s pos caps)
  | Group Index r1 => fun s pos caps =>
      run IgnoreCase r1
          (fun s' pos' caps' =>
             k s' pos'
               ((Index, string_of_list_ascii (firstn (pos' - pos) s)) :: caps'))
          s pos caps
  | Bol => fun s pos caps => if (pos =? 0)%nat then k s pos caps else None
  | Eol => fun s pos caps =>
      match s with
      | [] => k s pos caps
      | _ :: _ => None
      end
  end.

Fixpoint lookup (Index : nat) (caps : Captures) : string :=
  match caps with
  | [] => ""
  | (i, text) :: caps' => if (i =? Index)%nat then text else lookup Index caps'
  end.

(** The match that starts at the leftmost possible offset. *)
Fixpoint search (IgnoreCase : bool) (r : regex) (fuel : nat) (s : list ascii)
         (pos : nat) : option Captures :=
  match run IgnoreCase r
            (fun s' pos' caps =>
               Some ((0%nat, string_of_list_ascii (firstn (pos' - pos) s))
                       :: caps))
            s pos [] with
  | Some caps => Some caps
  | None =>
      match fuel, s with
      | S fuel', _ :: s' => search IgnoreCase r fuel' s' (S pos)
      | _, _ => None
      end
  end.

(** [Regex::match(String, &Matches)]: on a match, the text of the whole
    match and of every group, empty for a group that took no part. *)
Definition match_ (Compiled : regex * nat) (IgnoreCase : bool) (S0 : string)
  : option (list string) :=
  let s := list_ascii_of_string S0 in
  match search IgnoreCase (fst Compiled) (List.length s) s 0 with
  | Some caps =>
      Some (map (fun i => lookup i caps) (seq 0 (S (snd Compiled))))
  | None => None
  end.

(** Whether the first character of a text satisfies a test. *)
Definition headIs (p : ascii -> bool) (s : list ascii) : bool :=
  match s with
  | d :: _ => p d
  | [] => false
  end.
End Regex.

(* ================================================================== *)
(** ** NamespaceCommentCheck *)

Module NamespaceCommentCheck.

(** [llvm::Regex]: construction from a pattern and the [IgnoreCase] flag,
    and [match(String, &Matches)], which answers the matches (the whole
    match, then one text per group) when the pattern matches. *)
Class RegexInterface : Type := {
  Regex : Type;
  Regex_new : string -> bool -> Regex;
  Regex_match : Regex -> string -> option (list string)
}.

(** The kinds of token the check tells apart. *)
Inductive TokenKind : Type := eof | comment | other.

Record Token : Type := mkToken {
  getKind : TokenKind;
  getLength : Z
}.

Definition Token_is (Tok : Token) (K : TokenKind) : bool :=
  match getKind Tok, K with
  | eof, eof | comment, comment | other, other => true
  | _, _ => false
  end.

(** The [SourceManager] and the raw lexer, through what the check asks of
    them.  [getRawToken] answers the token that starts at a location, or
    [None] where the C++ function reports failure (it returns true);
    [getCharacterData] answers the text of the buffer from a location on. *)
Class SourceInterface : Type := {
  SourceManager : Type;
  isFileID : SourceLocation -> bool;
  getFileID : SourceManager -> SourceLocation -> nat;
  getSpellingLineNumber : SourceManager -> SourceLocation -> Z;
  getCharacterData : SourceManager -> SourceLocation -> string;
  getRawToken : SourceManager -> SourceLocation -> option Token
}.

(** [NamespaceDecl], through the members the check reads. *)
Record NamespaceDecl : Type := mkNamespaceDecl {
  isAnonymousNamespace : bool;
  getNameAsString : string;
  getLocStart : SourceLocation;
  getRBraceLoc : SourceLocation;
  getLocation : SourceLocation
}.

(** What the check streams into the builder that [diag(Loc, Description)]
    returns: the arguments of the message and the fix-it hint. *)
Record Report : Type := mkReport {
  ReportLoc : SourceLocation;
  ReportDescription : string;
  ReportArgs : list string;
  ReportFixIt : FixItHint
}.

(** [FixItHint::CreateInsertion]: a replacement of the empty range at the
    insertion point. *)
Definition CreateInsertion (InsertionLoc : SourceLocation) (Code : string)
  : FixItHint :=
  CreateReplacement (InsertionLoc, InsertionLoc) Code.

(** The pattern as the constructor writes it. *)
Definition NamespaceCommentPattern_text : string :=
  "^/[/*] *(end (of )?)? *(anonymous|unnamed)? *namespace( +([a-zA-Z0-9_]+))? *(\*/)?$".

(** [getNamespaceComment] *)
Definition getNamespaceComment (ND : NamespaceDecl) (InsertLineBreak : bool)
  : string :=
  let Fix1 := "// namespace" in
  let Fix2 :=
    if negb (isAnonymousNamespace ND)
    then (Fix1 ++ " " ++ getNameAsString ND)%string else Fix1 in
  if InsertLineBreak then (Fix2 ++ String "010" "")%string else Fix2.

Section Check.

Context {RX : RegexInterface} {SI : SourceInterface}.

(** The members of the check. *)
Record t : Type := mk {
  NamespaceCommentPattern : Regex;
  ShortNamespaceLines : Z
}.

(** [NamespaceCommentCheck()] *)
Definition new : t :=
  mk (Regex_new NamespaceCommentPattern_text true) 1.

(** [locationsInSameFile] *)
Definition locationsInSameFile (Sources : SourceManager)
           (Loc1 Loc2 : SourceLocation) : bool :=
  isFileID Loc1 && isFileID Loc2
  && (getFileID Sources Loc1 =? getFileID Sources Loc2)%nat.

(** The loop [while (Lexer::getRawToken(Loc, Tok, ...)) Loc = Loc + 1]: the
    location and the token it stops at, or [None] when it has not stopped
    after [fuel] steps. *)
Fixpoint skipToToken (fuel : nat) (Sources : SourceManager)
         (Loc : SourceLocation) : option (SourceLocation * Token) :=
  match getRawToken Sources Loc with
  | Some Tok => Some (Loc, Tok)
  | None =>
      match fuel with
      | O => None
      | S fuel' => skipToToken fuel' Sources (getLocWithOffset Loc 1)
      end
  end.

(** [check], for the namespace bound by the matcher: the reports made
    through [diag], or [None] when the token loop has not stopped. *)
Definition check (This : t) (fuel : nat) (Sources : SourceManager)
           (ND : NamespaceDecl) : option (list Report) :=
  if negb (locationsInSameFile Sources (getLocStart ND) (getRBraceLoc ND))
  then Some []
  else
    let StartLine := getSpellingLineNumber Sources (getLocStart ND) in
    let EndLine := getSpellingLineNumber Sources (getRBraceLoc ND) in
    if unsigned.wrap (EndLine - StartLine + 1) <=? ShortNamespaceLines This
    then Some []
    else
      let AfterRBrace := getLocWithOffset (getRBraceLoc ND) 1 in
      match skipToToken fuel Sources AfterRBrace with
      | None => None
      | Some (Loc, Tok) =>
          if negb (locationsInSameFile Sources (getRBraceLoc ND) Loc)
          then Some []
          else
            let NextTokenIsOnSameLine :=
              getSpellingLineNumber Sources Loc =? EndLine in
            let NeedLineBreak :=
              NextTokenIsOnSameLine && negb (Token_is Tok eof) in
            let notTerminated (NeedLineBreak0 : bool) :=
              Some [mkReport
                      (getLocation ND)
                      "namespace not terminated with a closing comment" []
                      (CreateInsertion
                         AfterRBrace
                         (" " ++ getNamespaceComment ND NeedLineBreak0)%string)] in
            if Token_is Tok comment && NextTokenIsOnSameLine then
              let Comment :=
                substring 0 (Z.to_nat (getLength Tok))
                          (getCharacterData Sources Loc) in
              match Regex_match (NamespaceCommentPattern This) Comment with
              | Some Groups =>
                  let NamespaceNameInComment :=
                    if (6 <=? List.length Groups)%nat then nth 5 Groups ""
                    else "" in
                  if (isAnonymousNamespace ND
                      && (NamespaceNameInComment =? "")%string)
                     || (getNameAsString ND =? NamespaceNameInComment)%string
                  then Some []
                  else
                    let NeedLineBreak1 := startswith Comment "/*" in
                    Some [mkReport
                            Loc
                            "namespace closing comment refers to a wrong namespace '%0'"
                            [NamespaceNameInComment]
                            (CreateReplacement
                               (Loc, getLocWithOffset Loc (getLength Tok))
                               (getNamespaceComment ND NeedLineBreak1))]
              | None =>
                  notTerminated
                    (if startswith Comment "//" then false else NeedLineBreak)
              end
            else notTerminated NeedLineBreak
      end.

End Check.

Arguments t {RX}.

(** [llvm::Regex] by the matcher above; a pattern that does not compile
    matches nothing. *)
Module Matcher.
#[export] Instance Interface : RegexInterface :=
  Build_RegexInterface
    (option (Regex.regex * nat) * bool)%type
    (fun Pattern IgnoreCase => (Regex.compile Pattern, IgnoreCase))
    (fun R S0 =>
       match fst R with
       | Some Compiled => Regex.match_ Compiled (snd R) S0
       | None => None
       end).
End Matcher.

(** One source file held as its text, with a lexer that knows white space,
    line comments, block comments and the end of the file and takes
    anything else for a token of one character. *)
Module MiniSource.
Definition isWhitespace (c : ascii) : bool :=
  ((c =? " ") || (c =? "009") || (c =? "010") || (c =? "013"))%char.

Fixpoint lineCommentLength (s : string) : nat :=
  match s with
  | EmptyString => O
  | String c s' => if (c =? "010")%char then O else S (lineCommentLength s')
  end.

Fixpoint blockCommentLength (s : string) : nat :=
  match s with
  | EmptyString => O
  | String c s' =>
      if (c =? "*")%char && prefix "/" s' then 2%nat
      else S (blockCommentLength s')
  end.

Fixpoint newlines (s : string) : nat :=
  match s with
  | EmptyString => O
  | String c s' => if (c =? "010")%char then S (newlines s') else newlines s'
  end.

Definition textFrom (Buffer : string) (Loc : SourceLocation) : string :=
  substring (Z.to_nat (LocOffset Loc))
            (String.length Buffer - Z.to_nat (LocOffset Loc)) Buffer.

Definition rawToken (Buffer : string) (Loc : SourceLocation) : option Token :=
  match textFrom Buffer Loc with
  | EmptyString => Some (mkToken eof 0)
  | String c s' =>
      if isWhitespace c then None
      else if prefix "//" (String c s')
           then Some (mkToken comment
                              (Z.of_nat (lineCommentLength (String c s'))))
      else if prefix "/*" (String c s')
           then Some (mkToken comment
                              (Z.of_nat (2 + blockCommentLength
                                                (substring 2 (String.length s') (String c s')))))
      else Some (mkToken other 1)
  end.

#[export] Instance Interface : SourceInterface :=
  Build_SourceInterface
    string
    (fun Loc => negb (LocFile Loc =? "")%string)
    (fun _ _ => O)
    (fun Buffer Loc =>
       Z.of_nat (S (newlines (substring 0 (Z.to_nat (LocOffset Loc)) Buffer))))
    textFrom
    rawToken.
End MiniSource.

(** A namespace name the pattern can read back: not empty, letters, digits
    and underscores. *)
Definition isIdentifierChar (c : ascii) : bool :=
  Regex.inRange "a" "z" c || Regex.inRange "A" "Z" c
  || Regex.inRange "0" "9" c || (c =? "_")%char.

Definition validName (Name : string) : Prop :=
  Name <> ""
  /\ forallb isIdentifierChar (list_ascii_of_string Name) = true.

(** The pattern of the check, compiled. *)
Definition CompiledPattern : Regex.regex * nat :=
  Eval vm_compute in
    match Regex.compile NamespaceCommentPattern_text with
    | Some Compiled => Compiled
    | None => (Regex.Eol, O)
    end.

End NamespaceCommentCheck.

(* ================================================================== *)
(** ** Namespaces used as examples *)

Module NamespaceScenario.
Import NamespaceCommentCheck.

Definition nl : string := String "010" "".

(** A namespace of three lines closed by the comment the check writes. *)
Definition commented : string :=
  ("namespace foo {" ++ nl ++ "int x;" ++ nl ++ "} // namespace foo" ++ nl)%string.

(** The same with no comment after the brace, and with other code after
    the brace. *)
Definition bare : string :=
  ("namespace foo {" ++ nl ++ "int x;" ++ nl ++ "}" ++ nl ++ "int y;")%string.

Definition crowded : string :=
  ("namespace foo {" ++ nl ++ "int x;" ++ nl ++ "} int y;")%string.

(** A namespace on one line; its brace is at offset 23 as well. *)
Definition oneLine : string := "namespace foo { int x; }".

(** The declaration of [foo] in the three-line texts: it starts at offset 0,
    its name is at offset 10 and its closing brace at offset 23. *)
Definition foo : NamespaceDecl :=
  mkNamespaceDecl false "foo" (mkLoc "n.h" 0) (mkLoc "n.h" 23) (mkLoc "n.h" 10).

(** A namespace [bar] at the same place. *)
Definition bar : NamespaceDecl :=
  mkNamespaceDecl false "bar" (mkLoc "n.h" 0) (mkLoc "n.h" 23) (mkLoc "n.h" 10).

Definition run (Buffer : string) (ND : NamespaceDecl) : option (list Report) :=
  check (RX := Matcher.Interface) (SI := MiniSource.Interface)
        new 8 Buffer ND.
End NamespaceScenario.

(* ================================================================== *)
(** * Properties *)

(** ** The model on small runs *)

Example run_writes_the_edit :
  let Closing := mkReplacement "n.h" 15 0 " // namespace n" in
  let E := mkError "google-readability-namespace-comments"
                   (mkMessage "namespace not terminated with a closing comment"
                              "n.h" 0)
                   [Closing] [] Warning in
  let Before :=
    ("namespace n {" ++ String "010" "}" ++ String "010" "")%string in
  let After :=
    ("namespace n {" ++ String "010" "} // namespace n"
       ++ String "010" "")%string in
  let Run := handleErrors (RI := TextRewriter.Interface)
                          [("n.h", Before)] [E] true "" in
  ledger (fst Run) = (1, 1)
  /\ Files (snd Run) = [("n.h", After)]
  /\ errs (snd Run)
     = ("clang-tidy applied 1 of 1 suggested fixes." ++ String "010" "")%string.
Proof. cbn zeta. repeat split; vm_compute; reflexivity. Qed.

Example inventory_without_analyzer :
  getCheckNames ["core.NullDereference"] unit [("foo", tt)]
                (NameFilter.isEnabled
                   [NameFilter.mkRule true "*";
                    NameFilter.mkRule false "clang-analyzer-*"] true)
  = ["foo"].
Proof. reflexivity. Qed.

Example inventory_sorted_together :
  getCheckNames Scenario.checkers unit Scenario.factories Scenario.everything
  = ["clang-analyzer-core.NullDereference"; "clang-analyzer-unix.Malloc";
     "google-explicit-constructor"; "misc-use-override"].
Proof. reflexivity. Qed.

Example missing_file_edit_fails :
  map ID (fixStatusNotes (Diags (fst (Scenario.run [Scenario.D3] true))))
  = [note_fixit_failed]
  /\ ledger (fst (Scenario.run [Scenario.D3] true)) = (1, 0).
Proof. split; vm_compute; reflexivity. Qed.

(** ** Arithmetic of the counters *)

Lemma incr_range (x : Z) : 0 <= unsigned.incr x < unsigned.modulus.
Proof.
  unfold unsigned.incr, unsigned.wrap.
  apply Z.mod_pos_bound. reflexivity.
Qed.

Lemma iter_incr (n : nat) (x : Z) :
  0 <= x < unsigned.modulus ->
  Nat.iter n unsigned.incr x = unsigned.wrap (x + Z.of_nat n).
Proof.
  intros Hx. induction n as [|n IH].
  - simpl. unfold unsigned.wrap. rewrite Z.add_0_r.
    symmetry. apply Z.mod_small. exact Hx.
  - rewrite Nat.iter_succ, IH. unfold unsigned.incr, unsigned.wrap.
    rewrite Zplus_mod_idemp_l. f_equal. lia.
Qed.

Lemma iter_incr_small (n : nat) (x : Z) :
  0 <= x -> x + Z.of_nat n < unsigned.modulus ->
  Nat.iter n unsigned.incr x = x + Z.of_nat n.
Proof.
  intros H0 H1. rewrite iter_incr by lia.
  unfold unsigned.wrap. apply Z.mod_small. lia.
Qed.

Lemma count_true_le (l : list bool) : (count_true l <= List.length l)%nat.
Proof. unfold count_true. apply filter_length_le. Qed.

Lemma count_true_app (l1 l2 : list bool) :
  count_true (l1 ++ l2) = (count_true l1 + count_true l2)%nat.
Proof. unfold count_true. now rewrite filter_app, length_app. Qed.

Lemma combine_append {A B : Type} (l1 l2 : list A) (k1 k2 : list B) :
  List.length l1 = List.length k1 ->
  combine (l1 ++ l2) (k1 ++ k2) = combine l1 k1 ++ combine l2 k2.
Proof.
  revert k1. induction l1 as [|a l1 IH]; intros [|b k1] Hlen;
    try discriminate; cbn; [reflexivity|].
  f_equal. apply IH. now injection Hlen.
Qed.

(** ** The reporter, one diagnostic at a time *)

Section ReporterFacts.

Context {RI : RewriterInterface}.
Variable Disk : FileSystem.

Lemma attempts_length (Fixes : list Replacement) (RW : Rewriter) :
  List.length (outcomes Disk Fixes RW) = List.length Fixes.
Proof.
  unfold outcomes. revert RW.
  induction Fixes as [|F Fixes IH]; intros RW; simpl; [reflexivity|].
  destruct (attempt Disk F RW) as [ok RW1].
  specialize (IH RW1). destruct (attempts Disk Fixes RW1) as [oks RW2].
  simpl in *. now rewrite IH.
Qed.

Lemma attempts_app (Fs1 Fs2 : list Replacement) (RW : Rewriter) :
  attempts Disk (Fs1 ++ Fs2) RW =
  (outcomes Disk Fs1 RW ++ outcomes Disk Fs2 (snd (attempts Disk Fs1 RW)),
   snd (attempts Disk Fs2 (snd (attempts Disk Fs1 RW)))).
Proof.
  unfold outcomes. revert RW.
  induction Fs1 as [|F Fs1 IH]; intros RW; simpl.
  - now destruct (attempts Disk Fs2 RW).
  - destruct (attempt Disk F RW) as [ok RW1]. rewrite IH.
    destruct (attempts Disk Fs1 RW1) as [oks RW2]. reflexivity.
Qed.

(** The loop over [Error.Fix] in closed form. *)
Lemma fixLoop_closed (Fixes : list Replacement) (S : FixLoop) :
  fold_left (fixStep Disk) Fixes S =
  let R := Reporter S in
  let oks := outcomes Disk Fixes (Rewrite R) in
  mkFixLoop
    (mkReporter
       (Diags R)
       (if ApplyFixes R then snd (attempts Disk Fixes (Rewrite R))
        else Rewrite R)
       (ApplyFixes R)
       (Nat.iter (List.length Fixes) unsigned.incr (TotalFixes R))
       (if ApplyFixes R
        then Nat.iter (count_true oks) unsigned.incr (AppliedFixes R)
        else AppliedFixes R))
    (Hints S ++ map hintOf Fixes)
    (FixLocations S
       ++ (if ApplyFixes R then combine (map FixLoc Fixes) oks else [])).
Proof.
  revert S. induction Fixes as [|F Fixes IH]; intros [R H L].
  - destruct R as [d rw [|] t a]; simpl; now rewrite !app_nil_r.
  - cbn [fold_left]. rewrite IH. clear IH.
    unfold fixStep, outcomes. cbn [Reporter Hints FixLocations attempts map].
    destruct R as [d rw af t a]. cbn [ApplyFixes Rewrite Diags TotalFixes AppliedFixes].
    destruct af.
    + destruct (attempt Disk F rw) as [ok RW1].
      cbn [Reporter Hints FixLocations ApplyFixes Rewrite Diags TotalFixes AppliedFixes].
      destruct (attempts Disk Fixes RW1) as [oks RW2]. cbn [fst snd combine List.length].
      rewrite <- !app_assoc. cbn [app].
      rewrite Nat.iter_succ_r.
      f_equal. f_equal.
      destruct ok; unfold count_true; cbn [filter List.length].
      * now rewrite Nat.iter_succ_r.
      * reflexivity.
    + cbn [Reporter Hints FixLocations ApplyFixes Rewrite Diags TotalFixes AppliedFixes List.length].
      rewrite <- !app_assoc. cbn [app]. rewrite Nat.iter_succ_r. reflexivity.
Qed.

Lemma fold_Report (L : list (SourceLocation * bool)) (R : ErrorReporter) :
  fold_left (fun r F => Report (fixNote F) r) L R =
  mkReporter (Diags R ++ map fixNote L) (Rewrite R) (ApplyFixes R)
             (TotalFixes R) (AppliedFixes R).
Proof.
  revert R. induction L as [|F L IH]; intros R; cbn [fold_left map].
  - rewrite app_nil_r. now destruct R.
  - rewrite IH. unfold Report. cbn. now rewrite <- app_assoc.
Qed.

Lemma fold_reportNote (Ns : list ClangTidyMessage) (R : ErrorReporter) :
  fold_left (fun r N => reportNote N r) Ns R =
  mkReporter (Diags R ++ map noteDiagnostic Ns) (Rewrite R) (ApplyFixes R)
             (TotalFixes R) (AppliedFixes R).
Proof.
  revert R. induction Ns as [|N Ns IH]; intros R; cbn [fold_left map].
  - rewrite app_nil_r. now destruct R.
  - rewrite IH. unfold reportNote, Report, noteDiagnostic. cbn.
    now rewrite <- app_assoc.
Qed.

Lemma reportDiagnostic_closed (E : ClangTidyError) (R : ErrorReporter) :
  reportDiagnostic Disk E R =
  mkReporter
    (Diags R ++ mainDiagnostic E :: fixNotesFor Disk E R
       ++ map noteDiagnostic (Notes E))
    (if ApplyFixes R then snd (attempts Disk (Fix E) (Rewrite R))
     else Rewrite R)
    (ApplyFixes R)
    (Nat.iter (List.length (Fix E)) unsigned.incr (TotalFixes R))
    (if ApplyFixes R
     then Nat.iter (count_true (outcomes Disk (Fix E) (Rewrite R)))
                   unsigned.incr (AppliedFixes R)
     else AppliedFixes R).
Proof.
  unfold reportDiagnostic. rewrite fixLoop_closed.
  cbn [Reporter Hints FixLocations app].
  rewrite fold_reportNote, fold_Report. unfold Report, fixNotesFor, mainDiagnostic.
  cbn [Diags Rewrite ApplyFixes TotalFixes AppliedFixes].
  rewrite <- !app_assoc. cbn [app]. now destruct (ApplyFixes R).
Qed.

Lemma fixStatusNotes_fixNote (L : list (SourceLocation * bool)) :
  fixStatusNotes (map fixNote L) = map fixNote L.
Proof.
  unfold fixStatusNotes. induction L as [|[loc [|]] L IH]; cbn; now rewrite ?IH.
Qed.

Lemma fixStatusNotes_notes (Ns : list ClangTidyMessage) :
  fixStatusNotes (map noteDiagnostic Ns) = [].
Proof. unfold fixStatusNotes. induction Ns as [|N Ns IH]; cbn; auto. Qed.

Lemma fixStatusNotes_app (Ds1 Ds2 : list Diagnostic) :
  fixStatusNotes (Ds1 ++ Ds2) = fixStatusNotes Ds1 ++ fixStatusNotes Ds2.
Proof. apply filter_app. Qed.

(** The whole run in closed form, from any reporter. *)
Lemma reportAll_closed (Errors : list ClangTidyError) (R : ErrorReporter) :
  let R' := reportAll Disk Errors R in
  let Fixes := allFixes Errors in
  let oks := outcomes Disk Fixes (Rewrite R) in
  ApplyFixes R' = ApplyFixes R
  /\ TotalFixes R' = Nat.iter (List.length Fixes) unsigned.incr (TotalFixes R)
  /\ AppliedFixes R' =
     (if ApplyFixes R
      then Nat.iter (count_true oks) unsigned.incr (AppliedFixes R)
      else AppliedFixes R)
  /\ Rewrite R' =
     (if ApplyFixes R then snd (attempts Disk Fixes (Rewrite R))
      else Rewrite R)
  /\ fixStatusNotes (Diags R') =
     fixStatusNotes (Diags R)
       ++ (if ApplyFixes R then map fixNote (combine (map FixLoc Fixes) oks)
           else []).
Proof.
  revert R. induction Errors as [|E Errors IH]; intros R.
  - cbn. destruct (ApplyFixes R); rewrite app_nil_r; auto.
  - unfold reportAll in *. cbn [fold_left]. cbn zeta in IH.
    specialize (IH (reportDiagnostic Disk E R)).
    rewrite reportDiagnostic_closed in IH.
    cbn [ApplyFixes TotalFixes AppliedFixes Rewrite Diags] in IH.
    rewrite reportDiagnostic_closed.
    destruct IH as (Ha & Ht & Hp & Hr & Hn).
    cbn zeta. unfold allFixes in *. cbn [flat_map].
    rewrite Ha, Ht, Hp, Hr, Hn. clear Ha Ht Hp Hr Hn.
    rewrite length_app, Nat.add_comm, Nat.iter_add.
    split; [reflexivity|]. split; [reflexivity|].
    unfold fixNotesFor, outcomes. rewrite attempts_app. cbn [fst snd].
    rewrite !fixStatusNotes_app. cbn [app].
    destruct (ApplyFixes R).
    + rewrite count_true_app, Nat.add_comm, Nat.iter_add.
      split; [reflexivity|]. split; [reflexivity|].
      rewrite map_app, combine_append, map_app
        by (rewrite length_map; symmetry; apply attempts_length).
      change (fixStatusNotes (mainDiagnostic E :: ?l)) with (fixStatusNotes l).
      rewrite fixStatusNotes_app, fixStatusNotes_fixNote, fixStatusNotes_notes.
      rewrite app_nil_r, <- !app_assoc. reflexivity.
    + split; [reflexivity|]. split; [reflexivity|].
      change (fixStatusNotes (mainDiagnostic E :: ?l)) with (fixStatusNotes l).
      cbn [app]. rewrite fixStatusNotes_notes, !app_nil_r. reflexivity.
Qed.

End ReporterFacts.

(** ** Dry runs and the ledger *)

(** C1 (as amended): a dry run and a writing run over the same diagnostics
    agree on [TotalFixes]; the dry run keeps [AppliedFixes] at zero, never
    touches the rewriter, prints no summary and leaves every file as it
    was. *)
Theorem dry_run_ledger {RI : RewriterInterface} (Disk : FileSystem)
        (Errors : list ClangTidyError) (errs0 : string) :
  let Dry := handleErrors Disk Errors false errs0 in
  let Wet := handleErrors Disk Errors true errs0 in
  TotalFixes (fst Dry) = TotalFixes (fst Wet)
  /\ AppliedFixes (fst Dry) = 0
  /\ Rewrite (fst Dry) = emptyRewriter
  /\ Files (snd Dry) = Disk
  /\ errs (snd Dry) = errs0.
Proof.
  cbn zeta. unfold handleErrors. cbn [fst snd].
  pose proof (reportAll_closed Disk Errors (newErrorReporter false)) as Hd.
  pose proof (reportAll_closed Disk Errors (newErrorReporter true)) as Hw.
  cbn zeta in Hd, Hw. cbn [newErrorReporter ApplyFixes TotalFixes AppliedFixes Rewrite] in Hd, Hw.
  destruct Hd as (Had & Htd & Hpd & Hrd & _).
  destruct Hw as (_ & Htw & _).
  unfold Finish. rewrite Had. cbn [andb errs Files].
  repeat split; congruence.
Qed.

(** C1, the claim as stated fails: with one applicable edit the writing run
    counts it in [AppliedFixes] and the dry run does not. *)
Lemma dry_run_ledger_differs :
  ~ (forall Errors : list ClangTidyError,
        ledger (fst (Scenario.run Errors false))
        = ledger (fst (Scenario.run Errors true))).
Proof.
  intros H. specialize (H [Scenario.D1]).
  vm_compute in H. discriminate H.
Qed.

(** ** Fix-it notes *)

(** C2 (as amended): [reportDiagnostic] emits the main diagnostic, then the
    fix-status notes, then the error's own notes.  When fixes are being
    applied there is exactly one fix-status note per replacement, in edit
    order, each at the edit's start location and saying applied or failed
    as the attempt went; when they are not, there is none. *)
Theorem fix_notes_per_replacement {RI : RewriterInterface} (Disk : FileSystem)
        (E : ClangTidyError) (R : ErrorReporter) :
  let oks := outcomes Disk (Fix E) (Rewrite R) in
  let notes := fixNotesFor Disk E R in
  Diags (reportDiagnostic Disk E R)
  = Diags R ++ mainDiagnostic E :: notes ++ map noteDiagnostic (Notes E)
  /\ List.length notes = (if ApplyFixes R then List.length (Fix E) else 0%nat)
  /\ map DiagLoc notes = (if ApplyFixes R then map FixLoc (Fix E) else [])
  /\ map ID notes = (if ApplyFixes R then map statusID oks else [])
  /\ fixStatusNotes (mainDiagnostic E :: notes ++ map noteDiagnostic (Notes E))
     = notes.
Proof.
  cbn zeta. rewrite reportDiagnostic_closed. cbn [Diags].
  split; [reflexivity|].
  pose proof (attempts_length Disk (Fix E) (Rewrite R)) as Hlen.
  unfold fixNotesFor.
  change (fixStatusNotes (mainDiagnostic E :: ?l)) with (fixStatusNotes l).
  rewrite fixStatusNotes_app, fixStatusNotes_notes, app_nil_r.
  destruct (ApplyFixes R); [|repeat split; reflexivity].
  rewrite fixStatusNotes_fixNote.
  rewrite !map_map, length_map, length_combine, length_map, Hlen, Nat.min_id.
  split; [reflexivity|].
  assert (Hgen : forall (Ls : list SourceLocation) (Bs : list bool),
             List.length Ls = List.length Bs ->
             map (fun x => DiagLoc (fixNote x)) (combine Ls Bs) = Ls
             /\ map (fun x => ID (fixNote x)) (combine Ls Bs) = map statusID Bs).
  { induction Ls as [|l Ls IH]; intros [|b Bs] Hl; try discriminate;
      cbn [combine map].
    - split; reflexivity.
    - injection Hl as Hl. destruct (IH Bs Hl) as [H1 H2].
      rewrite H1, H2. split; reflexivity. }
  destruct (Hgen (map FixLoc (Fix E)) (outcomes Disk (Fix E) (Rewrite R)))
    as [H1 H2]; [now rewrite length_map|].
  rewrite H1, H2. repeat split; reflexivity.
Qed.

(** C2, the claim as stated fails: in a dry run a diagnostic with one
    replacement gets no fix-status note. *)
Lemma no_fix_notes_in_dry_run :
  fixStatusNotes (Diags (fst (Scenario.run [Scenario.D1] false))) = []
  /\ List.length (Fix Scenario.D1) = 1%nat.
Proof. split; vm_compute; reflexivity. Qed.

(** ** The summary line *)

Lemma append_same_l (s t : string) : (s ++ t)%string = s -> t = "".
Proof.
  induction s as [|c s IH]; cbn; intros H; [exact H|].
  injection H as H. now apply IH.
Qed.

Lemma summaryLine_not_empty {RI : RewriterInterface} (R : ErrorReporter) :
  summaryLine R <> "".
Proof. unfold summaryLine. cbn. discriminate. Qed.

Lemma Finish_cases {RI : RewriterInterface} (R : ErrorReporter) (P : Process) :
  (ApplyFixes R = true /\ 0 < TotalFixes R
   /\ Finish R P = mkProcess (errs P ++ summaryLine R)%string
                             (overwriteChangedFiles (Rewrite R) (Files P)))
  \/ (~ (ApplyFixes R = true /\ 0 < TotalFixes R) /\ Finish R P = P).
Proof.
  unfold Finish. destruct (ApplyFixes R); cbn [andb].
  - destruct (Z.ltb_spec 0 (TotalFixes R)) as [Hlt|Hge].
    + left. auto.
    + right. split; [lia|reflexivity].
  - right. split; [intros [H _]; discriminate H|reflexivity].
Qed.

(** C6: at the end of a run the line "clang-tidy applied <AppliedFixes> of
    <TotalFixes> suggested fixes." is written exactly when fixes are being
    applied and [TotalFixes] is greater than zero; otherwise nothing is
    written (so nothing in a dry run, and nothing when [TotalFixes] is
    zero). *)
Theorem summary_printed_iff {RI : RewriterInterface} (Disk : FileSystem)
        (Errors : list ClangTidyError) (Fix0 : bool) (errs0 : string) :
  let R := fst (handleErrors Disk Errors Fix0 errs0) in
  let P := snd (handleErrors Disk Errors Fix0 errs0) in
  (errs P = (errs0 ++ "clang-tidy applied "
               ++ unsigned.to_string (AppliedFixes R) ++ " of "
               ++ unsigned.to_string (TotalFixes R) ++ " suggested fixes."
               ++ String "010" "")%string
   <-> Fix0 = true /\ 0 < TotalFixes R)
  /\ (errs P = errs0 <-> ~ (Fix0 = true /\ 0 < TotalFixes R)).
Proof.
  cbn zeta. unfold handleErrors. cbn [fst snd].
  set (R := reportAll Disk Errors (newErrorReporter Fix0)).
  assert (Ha : ApplyFixes R = Fix0)
    by (apply (reportAll_closed Disk Errors (newErrorReporter Fix0))).
  change ("clang-tidy applied " ++ unsigned.to_string (AppliedFixes R) ++ " of "
            ++ unsigned.to_string (TotalFixes R) ++ " suggested fixes."
            ++ String "010" "")%string with (summaryLine R).
  rewrite <- Ha.
  destruct (Finish_cases R (mkProcess errs0 Disk)) as [(H1 & H2 & ->)|(Hn & ->)];
    cbn [errs].
  - split; split; intros H; auto.
    + exfalso. apply (summaryLine_not_empty R).
      apply (append_same_l errs0). exact H.
    + exfalso. apply H. auto.
  - split; split; intros H; auto.
    + exfalso. apply (summaryLine_not_empty R).
      apply (append_same_l errs0). symmetry. exact H.
    + contradiction.
Qed.

(** ** Order of the edits and overlapping ranges *)

Lemma reportAll_app {RI : RewriterInterface} (Disk : FileSystem)
      (Es1 Es2 : list ClangTidyError) (R : ErrorReporter) :
  reportAll Disk (Es1 ++ Es2) R = reportAll Disk Es2 (reportAll Disk Es1 R).
Proof. unfold reportAll. apply fold_left_app. Qed.

Lemma map_fixNote_combine (Ls : list SourceLocation) (Bs : list bool) :
  List.length Ls = List.length Bs ->
  map DiagLoc (map fixNote (combine Ls Bs)) = Ls
  /\ map ID (map fixNote (combine Ls Bs)) = map statusID Bs
  /\ List.length (filter isAppliedNote (map fixNote (combine Ls Bs)))
     = count_true Bs.
Proof.
  revert Bs. induction Ls as [|l Ls IH]; intros [|b Bs] Hl; try discriminate.
  - repeat split.
  - injection Hl as Hl. destruct (IH Bs Hl) as (H1 & H2 & H3).
    cbn [combine map]. rewrite H1, H2.
    split; [reflexivity|]. split; [reflexivity|].
    unfold count_true in *. destruct b; cbn; now rewrite H3.
Qed.

(** C7 (as amended): the reporter has no overlap check of its own.  Edits
    are attempted in report order; each is marked applied exactly when it
    is applicable and the rewriter's [apply] accepts it, given the edits
    attempted before it.  What was decided for earlier diagnostics is never
    revised by later ones. *)
Theorem edits_decided_in_report_order {RI : RewriterInterface}
        (Disk : FileSystem) (Errors1 Errors2 : list ClangTidyError) :
  let R1 := reportAll Disk Errors1 (newErrorReporter true) in
  let R := reportAll Disk (Errors1 ++ Errors2) (newErrorReporter true) in
  let Fixes := allFixes (Errors1 ++ Errors2) in
  map ID (fixStatusNotes (Diags R))
  = map statusID (outcomes Disk Fixes emptyRewriter)
  /\ map DiagLoc (fixStatusNotes (Diags R)) = map FixLoc Fixes
  /\ (forall F Fs RW,
         outcomes Disk (F :: Fs) RW
         = (isApplicable F && fst (Replacement_apply Disk F RW))
             :: outcomes Disk Fs
                  (if isApplicable F then snd (Replacement_apply Disk F RW)
                   else RW))
  /\ fixStatusNotes (Diags R)
     = fixStatusNotes (Diags R1)
         ++ map fixNote
              (combine (map FixLoc (allFixes Errors2))
                       (outcomes Disk (allFixes Errors2) (Rewrite R1))).
Proof.
  cbn zeta.
  pose proof (reportAll_closed Disk (Errors1 ++ Errors2) (newErrorReporter true))
    as (_ & _ & _ & _ & Hn).
  cbn [newErrorReporter ApplyFixes Rewrite Diags fixStatusNotes filter app] in Hn.
  pose proof (attempts_length Disk (allFixes (Errors1 ++ Errors2)) emptyRewriter)
    as Hlen.
  destruct (map_fixNote_combine
              (map FixLoc (allFixes (Errors1 ++ Errors2)))
              (outcomes Disk (allFixes (Errors1 ++ Errors2)) emptyRewriter))
    as (H1 & H2 & _); [now rewrite length_map|].
  rewrite Hn, H1, H2.
  split; [reflexivity|]. split; [reflexivity|]. split.
  - intros F Fs RW. unfold outcomes, attempt. cbn [attempts]. unfold attempt.
    destruct (isApplicable F); cbn [andb].
    + destruct (Replacement_apply Disk F RW) as [ok RW1]. cbn [fst snd].
      now destruct (attempts Disk Fs RW1).
    + cbn [fst snd]. now destruct (attempts Disk Fs RW).
  - rewrite <- Hn, reportAll_app.
    pose proof (reportAll_closed Disk Errors1 (newErrorReporter true))
      as (Ha & _).
    pose proof (reportAll_closed Disk Errors2
                  (reportAll Disk Errors1 (newErrorReporter true)))
      as (_ & _ & _ & _ & Hn2).
    rewrite Ha in Hn2. exact Hn2.
Qed.

(** C7, the claim as stated fails: two diagnostics whose edits cover
    [[10,20)] and [[15,25)] of the same file are both recorded by the
    rewriter and both marked applied. *)
Lemma later_overlapping_edit_applied :
  let R := fst (Scenario.run [Scenario.D1; Scenario.D2] true) in
  conflict Scenario.R1 Scenario.R2 = true
  /\ map ID (fixStatusNotes (Diags R)) = [note_fixit_applied; note_fixit_applied]
  /\ Rewrite R = [Scenario.R1; Scenario.R2]
  /\ ledger R = (2, 2).
Proof. cbn zeta. repeat split; vm_compute; reflexivity. Qed.

(** ** The ledger *)

Lemma filter_applied_fixStatus (Ds : list Diagnostic) :
  filter isAppliedNote (fixStatusNotes Ds) = filter isAppliedNote Ds.
Proof.
  unfold fixStatusNotes.
  induction Ds as [|[loc [lv fmt| |] args hints] Ds IH]; [reflexivity| | |];
    cbn; now rewrite IH.
Qed.

(** The counters of a run, modulo [2^32], whatever the number of edits. *)
Lemma ledger_modular {RI : RewriterInterface} (Disk : FileSystem)
      (Errors : list ClangTidyError) (Fix0 : bool) :
  let R := reportAll Disk Errors (newErrorReporter Fix0) in
  let oks := outcomes Disk (allFixes Errors) emptyRewriter in
  TotalFixes R = unsigned.wrap (Z.of_nat (List.length (allFixes Errors)))
  /\ AppliedFixes R
     = (if Fix0 then unsigned.wrap (Z.of_nat (count_true oks)) else 0)
  /\ List.length (filter isAppliedNote (Diags R))
     = (if Fix0 then count_true oks else 0%nat).
Proof.
  cbn zeta.
  pose proof (reportAll_closed Disk Errors (newErrorReporter Fix0))
    as (_ & Ht & Hp & _ & Hn).
  cbn [newErrorReporter ApplyFixes TotalFixes AppliedFixes Rewrite Diags
       fixStatusNotes filter app] in Ht, Hp, Hn.
  assert (H0 : 0 <= 0 < unsigned.modulus) by (split; [lia|reflexivity]).
  rewrite Ht, Hp, <- filter_applied_fixStatus, Hn.
  rewrite !(iter_incr _ 0 H0). cbn [Z.add].
  split; [reflexivity|].
  destruct Fix0; [|split; reflexivity].
  split; [reflexivity|].
  apply map_fixNote_combine. rewrite length_map. symmetry.
  apply attempts_length.
Qed.

(** C8: after the diagnostics of a run have been reported, [TotalFixes] is
    the number of replacements of all reported diagnostics, [AppliedFixes]
    is at most [TotalFixes], and [AppliedFixes] is the number of edits that
    were applied: the number of attempts that succeeded, which is also the
    number of notes saying so.  The counters are 32-bit [unsigned]; the
    statement is for runs whose number of replacements fits. *)
Theorem ledger_invariant {RI : RewriterInterface} (Disk : FileSystem)
        (Errors : list ClangTidyError) (Fix0 : bool)
        (Hfits : Z.of_nat (List.length (allFixes Errors)) < unsigned.modulus) :
  let R := reportAll Disk Errors (newErrorReporter Fix0) in
  TotalFixes R = Z.of_nat (List.length (allFixes Errors))
  /\ 0 <= AppliedFixes R <= TotalFixes R
  /\ AppliedFixes R
     = (if Fix0
        then Z.of_nat (count_true (outcomes Disk (allFixes Errors) emptyRewriter))
        else 0)
  /\ AppliedFixes R = Z.of_nat (List.length (filter isAppliedNote (Diags R))).
Proof.
  cbn zeta.
  destruct (ledger_modular Disk Errors Fix0) as (Ht & Hp & Hn).
  pose proof (count_true_le (outcomes Disk (allFixes Errors) emptyRewriter))
    as Hle.
  rewrite attempts_length in Hle.
  rewrite Ht, Hp, Hn. unfold unsigned.wrap.
  rewrite Z.mod_small by lia.
  destruct Fix0.
  - rewrite Z.mod_small by lia. repeat split; lia.
  - repeat split; lia.
Qed.

Lemma ledger_invariant_witness :
  Z.of_nat (List.length (allFixes [Scenario.D1; Scenario.D3; Scenario.D2]))
  < unsigned.modulus
  /\ (let R := reportAll (RI := TextRewriter.Interface) Scenario.disk
                 [Scenario.D1; Scenario.D3; Scenario.D2]
                 (newErrorReporter true) in
      TotalFixes R = 3 /\ AppliedFixes R = 2
      /\ 0 <= AppliedFixes R <= TotalFixes R
      /\ AppliedFixes R = Z.of_nat (List.length (filter isAppliedNote (Diags R)))).
Proof.
  assert (Hfits : Z.of_nat (List.length
                              (allFixes [Scenario.D1; Scenario.D3; Scenario.D2]))
                  < unsigned.modulus) by (vm_compute; reflexivity).
  split; [exact Hfits|].
  destruct (ledger_invariant (RI := TextRewriter.Interface) Scenario.disk
              [Scenario.D1; Scenario.D3; Scenario.D2] true Hfits)
    as (Ht & Hb & Hp & Hn).
  cbn zeta. split; [exact Ht|]. split; [exact Hp|]. split; [exact Hb|exact Hn].
Defined.

(** The counters wrap: a diagnostic carrying [2^32] replacements leaves
    [TotalFixes] at zero. *)
Lemma TotalFixes_wraps {RI : RewriterInterface} (Disk : FileSystem)
      (F : Replacement) :
  TotalFixes
    (reportAll Disk
       [mkError "" (mkMessage "" "" 0) (repeat F (Nat.pow 2 32)) [] Warning]
       (newErrorReporter false))
  = 0.
Proof.
  destruct (ledger_modular Disk
              [mkError "" (mkMessage "" "" 0) (repeat F (Nat.pow 2 32)) [] Warning]
              false) as (Ht & _).
  rewrite Ht. unfold allFixes. cbn [flat_map Fix].
  rewrite app_nil_r, repeat_length, Nat2Z.inj_pow.
  reflexivity.
Qed.

(** ** A check's name *)

(** C9: [setName] succeeds only on a check whose name is still empty, and
    then the name is the one given; on a check that has a name the assertion
    fails, so no later call overwrites a name once set. *)
Theorem setName_assigns_once (C : ClangTidyCheck.t) (Name : string) :
  (forall C', ClangTidyCheck.setName Name C = ClangTidyCheck.Ok C' ->
              ClangTidyCheck.CheckName C = ""
              /\ ClangTidyCheck.CheckName C' = Name)
  /\ (ClangTidyCheck.CheckName C = "" ->
      ClangTidyCheck.setName Name C = ClangTidyCheck.Ok (ClangTidyCheck.mk Name))
  /\ (ClangTidyCheck.CheckName C <> "" ->
      ClangTidyCheck.setName Name C = ClangTidyCheck.AssertionFailed)
  /\ (ClangTidyCheck.CheckName C <> "" ->
      forall Names C',
        ClangTidyCheck.setNames Names C = ClangTidyCheck.Ok C' ->
        Names = [] /\ C' = C).
Proof.
  assert (Hfail : ClangTidyCheck.CheckName C <> "" ->
                  forall N, ClangTidyCheck.setName N C
                            = ClangTidyCheck.AssertionFailed).
  { intros Hne N. unfold ClangTidyCheck.setName.
    destruct (String.eqb_spec (ClangTidyCheck.CheckName C) ""); congruence. }
  split; [|split; [|split]].
  - intros C' H. unfold ClangTidyCheck.setName in H.
    destruct (String.eqb_spec (ClangTidyCheck.CheckName C) "") as [He|Hne];
      [|discriminate H].
    injection H as <-. split; [exact He|reflexivity].
  - intros He. unfold ClangTidyCheck.setName. now rewrite He.
  - intros Hne. apply Hfail, Hne.
  - intros Hne [|N Names] C' H; cbn [ClangTidyCheck.setNames] in H.
    + injection H as <-. split; reflexivity.
    + rewrite (Hfail Hne N) in H. discriminate H.
Qed.

Lemma setName_assigns_once_witness :
  ClangTidyCheck.setName "misc-use-override" (ClangTidyCheck.mk "")
  = ClangTidyCheck.Ok (ClangTidyCheck.mk "misc-use-override")
  /\ ClangTidyCheck.setName "other" (ClangTidyCheck.mk "misc-use-override")
     = ClangTidyCheck.AssertionFailed.
Proof.
  split.
  - apply (proj1 (proj2 (setName_assigns_once (ClangTidyCheck.mk "")
                                              "misc-use-override"))).
    reflexivity.
  - apply (proj1 (proj2 (proj2 (setName_assigns_once
                                  (ClangTidyCheck.mk "misc-use-override")
                                  "other")))).
    cbn. discriminate.
Defined.

(** ** The analyzer's control list *)

Section ControlListFacts.

Variable StaticAnalyzerChecks : list string.

Lemma fold_orb {A : Type} (p : A -> bool) (l : list A) (b : bool) :
  fold_left (fun acc x => acc || p x) l b = b || existsb p l.
Proof.
  revert b. induction l as [|x l IH]; intros b; cbn.
  - now rewrite orb_false_r.
  - rewrite IH. now rewrite orb_assoc.
Qed.

Lemma fold_push {A B : Type} (q : A -> bool) (f : A -> B) (l : list A)
      (acc : list B) :
  fold_left (fun L x => if q x then L ++ [f x] else L) l acc
  = acc ++ map f (filter q l).
Proof.
  revert acc. induction l as [|x l IH]; intros acc; cbn.
  - now rewrite app_nil_r.
  - rewrite IH. destruct (q x); cbn; [now rewrite <- app_assoc|reflexivity].
Qed.

Lemma AnalyzerChecksEnabled_existsb (Filter : ChecksFilter) :
  AnalyzerChecksEnabled StaticAnalyzerChecks Filter
  = existsb (passesAsAnalyzerCheck Filter) StaticAnalyzerChecks.
Proof. unfold AnalyzerChecksEnabled. now rewrite fold_orb. Qed.

Lemma getCheckersControlList_closed (Filter : ChecksFilter) :
  getCheckersControlList StaticAnalyzerChecks Filter
  = if existsb (passesAsAnalyzerCheck Filter) StaticAnalyzerChecks
    then map (fun Name => (Name, true))
             (filter (fun Name => startswith Name "core"
                                  || passesAsAnalyzerCheck Filter Name)
                     StaticAnalyzerChecks)
    else [].
Proof.
  unfold getCheckersControlList. rewrite AnalyzerChecksEnabled_existsb.
  destruct (existsb _ _); [|reflexivity].
  exact (fold_push (fun Name => startswith Name "core"
                                || passesAsAnalyzerCheck Filter Name)
                   (fun Name => (Name, true)) StaticAnalyzerChecks []).
Qed.

Lemma core_is_not_debug (Name : string) :
  startswith Name "core" = true -> startswith Name "debug" = false.
Proof.
  unfold startswith. destruct Name as [|c Name]; cbn [prefix];
    [reflexivity|].
  destruct (ascii_dec "c" c) as [<-|Hc]; intros H; [|discriminate H].
  destruct (ascii_dec "d" "c") as [Hdc|_]; [discriminate Hdc|reflexivity].
Qed.

Lemma in_control_list (Filter : ChecksFilter) (Name : string) (b : bool) :
  In (Name, b) (getCheckersControlList StaticAnalyzerChecks Filter) <->
  b = true
  /\ In Name StaticAnalyzerChecks
  /\ existsb (passesAsAnalyzerCheck Filter) StaticAnalyzerChecks = true
  /\ (startswith Name "core" = true
      \/ passesAsAnalyzerCheck Filter Name = true).
Proof.
  rewrite getCheckersControlList_closed.
  destruct (existsb _ _) eqn:He.
  - rewrite in_map_iff. split.
    + intros (n & Hn & Hin). injection Hn as <- <-.
      apply filter_In in Hin. destruct Hin as [Hin Hq].
      apply orb_true_iff in Hq. auto.
    + intros (-> & Hin & _ & Hq). exists Name. split; [reflexivity|].
      apply filter_In. split; [exact Hin|]. now apply orb_true_iff.
  - split; [intros []|]. intros (_ & _ & H & _). discriminate H.
Qed.

Lemma control_list_nonempty (Filter : ChecksFilter) :
  getCheckersControlList StaticAnalyzerChecks Filter <> [] <->
  existsb (passesAsAnalyzerCheck Filter) StaticAnalyzerChecks = true.
Proof.
  split.
  - rewrite getCheckersControlList_closed.
    destruct (existsb _ _); [reflexivity|congruence].
  - intros He Hnil. pose proof He as He'.
    apply existsb_exists in He. destruct He as (n & Hin & Hp).
    assert (Hl : In (n, true)
                    (getCheckersControlList StaticAnalyzerChecks Filter))
      by (apply in_control_list; auto).
    rewrite Hnil in Hl. exact Hl.
Qed.

End ControlListFacts.

(** C10: no checker whose name starts with "debug" is in the control list,
    and the list does not depend on what the filter says about such
    checkers: two filters that agree on the other checkers of the table give
    the same list. *)
Theorem debug_checkers_excluded (StaticAnalyzerChecks : list string)
        (Filter Filter' : ChecksFilter) :
  (forall Name b,
      In (Name, b) (getCheckersControlList StaticAnalyzerChecks Filter) ->
      startswith Name "debug" = false)
  /\ ((forall Name,
          In Name StaticAnalyzerChecks -> startswith Name "debug" = false ->
          Filter' (AnalyzerCheckNamePrefix ++ Name)%string
          = Filter (AnalyzerCheckNamePrefix ++ Name)%string) ->
      getCheckersControlList StaticAnalyzerChecks Filter'
      = getCheckersControlList StaticAnalyzerChecks Filter).
Proof.
  split.
  - intros Name b Hin. apply in_control_list in Hin.
    destruct Hin as (_ & _ & _ & [Hcore|Hpass]).
    + now apply core_is_not_debug.
    + unfold passesAsAnalyzerCheck in Hpass.
      apply andb_true_iff in Hpass. destruct Hpass as [Hd _].
      now apply negb_true_iff.
  - intros Hagree.
    assert (Hp : forall Name, In Name StaticAnalyzerChecks ->
                   passesAsAnalyzerCheck Filter' Name
                   = passesAsAnalyzerCheck Filter Name).
    { intros Name Hin. unfold passesAsAnalyzerCheck, isCheckEnabled.
      destruct (startswith Name "debug") eqn:Hd; [reflexivity|].
      cbn. now apply Hagree. }
    rewrite !getCheckersControlList_closed.
    assert (He : existsb (passesAsAnalyzerCheck Filter') StaticAnalyzerChecks
                 = existsb (passesAsAnalyzerCheck Filter) StaticAnalyzerChecks).
    { clear Hagree. induction StaticAnalyzerChecks as [|n l IH]; [reflexivity|].
      cbn. rewrite Hp by (left; reflexivity).
      rewrite IH; [reflexivity|]. intros m Hm. apply Hp. now right. }
    rewrite He. clear He.
    destruct (existsb (passesAsAnalyzerCheck Filter) StaticAnalyzerChecks);
      [|reflexivity].
    f_equal. apply filter_ext_in. intros n Hin. now rewrite Hp.
Qed.

Lemma debug_checkers_excluded_witness :
  startswith "debug.DumpCFG" "debug" = true
  /\ Scenario.everything "clang-analyzer-debug.DumpCFG" = true
  /\ ~ In ("debug.DumpCFG", true)
          (getCheckersControlList Scenario.checkers Scenario.everything)
  /\ getCheckersControlList Scenario.checkers Scenario.onlyDebug
     = getCheckersControlList Scenario.checkers (fun _ => false).
Proof.
  split; [reflexivity|]. split; [reflexivity|]. split.
  - intros Hin.
    pose proof (proj1 (debug_checkers_excluded Scenario.checkers
                         Scenario.everything Scenario.everything)
                      "debug.DumpCFG" true Hin) as H.
    discriminate H.
  - apply (proj2 (debug_checkers_excluded Scenario.checkers (fun _ => false)
                                          Scenario.onlyDebug)).
    intros Name [<-|[<-|[<-|[]]]] Hd; try reflexivity; discriminate Hd.
Defined.

(** C3 (as amended): the control list is non-empty exactly when some checker
    of the table that is not a debug checker has its analyzer-prefixed name
    enabled by the filter; and whenever the list is non-empty it holds every
    checker whose name starts with "core", whatever the filter says about
    that checker. *)
Theorem analyzer_considered_iff (StaticAnalyzerChecks : list string)
        (Filter : ChecksFilter) :
  (getCheckersControlList StaticAnalyzerChecks Filter <> [] <->
   exists Name,
     In Name StaticAnalyzerChecks
     /\ startswith Name "debug" = false
     /\ isCheckEnabled Filter (AnalyzerCheckNamePrefix ++ Name)%string = true)
  /\ (getCheckersControlList StaticAnalyzerChecks Filter <> [] ->
      forall Core,
        In Core StaticAnalyzerChecks -> startswith Core "core" = true ->
        In (Core, true) (getCheckersControlList StaticAnalyzerChecks Filter)).
Proof.
  split.
  - rewrite control_list_nonempty, existsb_exists.
    split; intros (Name & Hin & H); exists Name; (split; [exact Hin|]).
    + unfold passesAsAnalyzerCheck in H. apply andb_true_iff in H.
      destruct H as [Hd He]. split; [now apply negb_true_iff|exact He].
    + destruct H as [Hd He]. unfold passesAsAnalyzerCheck.
      now rewrite Hd, He.
  - intros Hne Core Hin Hcore. apply in_control_list.
    apply control_list_nonempty in Hne. auto.
Qed.

Lemma analyzer_considered_iff_witness :
  getCheckersControlList Scenario.checkers Scenario.onlyUnix <> []
  /\ Scenario.onlyUnix "clang-analyzer-core.NullDereference" = false
  /\ In ("core.NullDereference", true)
        (getCheckersControlList Scenario.checkers Scenario.onlyUnix).
Proof.
  assert (Hne : getCheckersControlList Scenario.checkers Scenario.onlyUnix <> []).
  { apply (proj2 (proj1 (analyzer_considered_iff Scenario.checkers
                                                   Scenario.onlyUnix))).
    exists "unix.Malloc". split; [cbn; auto|]. split; reflexivity. }
  split; [exact Hne|]. split; [reflexivity|].
  apply (proj2 (analyzer_considered_iff Scenario.checkers Scenario.onlyUnix)
               Hne "core.NullDereference").
  - cbn. auto.
  - reflexivity.
Defined.

(** C3, the claim as stated fails: the filter enables the analyzer-prefixed
    name of a debug checker, yet the control list is empty, and the core
    checker of the table is not in it. *)
Lemma debug_only_filter_gives_empty_list :
  In "debug.DumpCFG" Scenario.checkers
  /\ isCheckEnabled Scenario.onlyDebug
                    (AnalyzerCheckNamePrefix ++ "debug.DumpCFG")%string = true
  /\ getCheckersControlList Scenario.checkers Scenario.onlyDebug = []
  /\ In "core.NullDereference" Scenario.checkers
  /\ ~ In ("core.NullDereference", true)
          (getCheckersControlList Scenario.checkers Scenario.onlyDebug).
Proof.
  split; [cbn; auto|]. split; [reflexivity|]. split; [reflexivity|].
  split; [cbn; auto|]. intros H. vm_compute in H. exact H.
Qed.

(** ** The check inventory *)

Lemma ascii_compare_N (a b : ascii) :
  Ascii.compare a b = N.compare (N_of_ascii a) (N_of_ascii b).
Proof. reflexivity. Qed.

Lemma string_leb_trans (a b c : string) :
  string_le a b -> string_le b c -> string_le a c.
Proof.
  unfold string_le, String.leb. revert b c.
  induction a as [|x a IH]; intros [|y b] [|z c]; cbn [String.compare];
    try (intros; reflexivity); try (intros; discriminate).
  rewrite !ascii_compare_N.
  destruct (N.compare_spec (N_of_ascii x) (N_of_ascii y)) as [Hxy|Hxy|Hxy];
    destruct (N.compare_spec (N_of_ascii y) (N_of_ascii z)) as [Hyz|Hyz|Hyz];
    destruct (N.compare_spec (N_of_ascii x) (N_of_ascii z)) as [Hxz|Hxz|Hxz];
    try (intros; reflexivity); try (intros; discriminate);
    try (exfalso; lia).
  apply IH.
Qed.

#[local] Instance string_leb_Transitive :
  Transitive (fun x y : string => is_true (StringOrder.leb x y)).
Proof. intros a b c. apply string_leb_trans. Qed.

Lemma fold_collect {A B : Type} (f : A -> B) (l : list A) (acc : list B) :
  fold_left (fun L x => L ++ [f x]) l acc = acc ++ map f l.
Proof.
  revert acc. induction l as [|x l IH]; intros acc; cbn.
  - now rewrite app_nil_r.
  - rewrite IH. now rewrite <- app_assoc.
Qed.

(** The names collected by [getCheckNames] before they are sorted. *)
Lemma getCheckNames_closed (StaticAnalyzerChecks : list string)
      (CheckFactoryBase : Type)
      (CheckFactories : list (string * CheckFactoryBase))
      (Filter : ChecksFilter) :
  getCheckNames StaticAnalyzerChecks CheckFactoryBase CheckFactories Filter
  = StringSort.sort
      (map fst (filter (fun CF => isCheckEnabled Filter (fst CF)) CheckFactories)
       ++ map (fun AC => (AnalyzerCheckNamePrefix ++ fst AC)%string)
              (getCheckersControlList StaticAnalyzerChecks Filter)).
Proof.
  unfold getCheckNames. f_equal.
  rewrite (fold_collect (fun AC : string * bool =>
                           (AnalyzerCheckNamePrefix ++ fst AC)%string)).
  f_equal.
  exact (fold_push (fun CF : string * CheckFactoryBase =>
                      isCheckEnabled Filter (fst CF))
                   fst CheckFactories []).
Qed.

(** C4 (as amended): [getCheckNames] returns, sorted together in
    lexicographic order and with nothing added or lost, the registered names
    that pass the filter and the analyzer-prefixed names of the checkers in
    the control list.  The analyzer part follows the control list, not the
    filter alone. *)
Theorem getCheckNames_sorted_selection (StaticAnalyzerChecks : list string)
        (CheckFactoryBase : Type)
        (CheckFactories : list (string * CheckFactoryBase))
        (Filter : ChecksFilter) :
  let Names :=
    getCheckNames StaticAnalyzerChecks CheckFactoryBase CheckFactories Filter in
  StronglySorted string_le Names
  /\ Permutation
       Names
       (map fst (filter (fun CF => isCheckEnabled Filter (fst CF)) CheckFactories)
        ++ map (fun AC => (AnalyzerCheckNamePrefix ++ fst AC)%string)
               (getCheckersControlList StaticAnalyzerChecks Filter))
  /\ (forall Name,
         In Name Names <->
         (exists Factory,
             In (Name, Factory) CheckFactories
             /\ isCheckEnabled Filter Name = true)
         \/ (exists Checker,
                In (Checker, true)
                   (getCheckersControlList StaticAnalyzerChecks Filter)
                /\ Name = (AnalyzerCheckNamePrefix ++ Checker)%string)).
Proof.
  cbn zeta. rewrite getCheckNames_closed.
  set (Collected := map fst _ ++ map _ _).
  assert (Hperm : Permutation (StringSort.sort Collected) Collected)
    by (symmetry; apply StringSort.Permuted_sort).
  split; [apply (StringSort.StronglySorted_sort Collected), string_leb_Transitive|].
  split; [exact Hperm|].
  intros Name. split.
  - intros Hin. apply (Permutation_in _ Hperm) in Hin.
    unfold Collected in Hin. apply in_app_or in Hin.
    destruct Hin as [Hin|Hin]; apply in_map_iff in Hin.
    + destruct Hin as ([n f] & Hn & Hin). cbn in Hn. subst n.
      apply filter_In in Hin. cbn in Hin. left. exists f. exact Hin.
    + destruct Hin as ([c b] & Hn & Hin). cbn in Hn. right. exists c.
      split; [|now symmetry].
      pose proof (proj1 (in_control_list _ _ _ _) Hin) as (-> & _). exact Hin.
  - intros H. apply (Permutation_in _ (Permutation_sym Hperm)).
    unfold Collected. apply in_or_app.
    destruct H as [(f & Hin & He)|(c & Hin & ->)].
    + left. apply in_map_iff. exists (Name, f). split; [reflexivity|].
      apply filter_In. auto.
    + right. apply in_map_iff. exists (c, true). auto.
Qed.

(** C4, the claim as stated fails in both directions: the inventory holds
    the name of a core checker that the filter did not enable, and leaves
    out the name of a debug checker that the filter did enable. *)
Lemma inventory_is_not_the_filter_alone :
  (In "clang-analyzer-core.NullDereference"
      (getCheckNames Scenario.checkers unit Scenario.factories Scenario.onlyUnix)
   /\ isCheckEnabled Scenario.onlyUnix "clang-analyzer-core.NullDereference"
      = false)
  /\ (isCheckEnabled Scenario.everything "clang-analyzer-debug.DumpCFG" = true
      /\ In "debug.DumpCFG" Scenario.checkers
      /\ ~ In "clang-analyzer-debug.DumpCFG"
              (getCheckNames Scenario.checkers unit Scenario.factories
                             Scenario.everything)).
Proof.
  split; [split|split; [|split]].
  - vm_compute. auto.
  - reflexivity.
  - reflexivity.
  - cbn. auto.
  - intros H. vm_compute in H.
    repeat (destruct H as [H|H]; [discriminate H|]). exact H.
Qed.

(** ** Analyzer diagnostics *)

Section FlushFacts.

Context {PI : ento.PathPiecesInterface}.

Lemma fold_diag_notes (Name : string) (Pieces : list ento.PathDiagnosticPiece)
      (Context : ClangTidyContext) :
  fold_left
    (fun C DiagPiece =>
       diag Name (ento.PieceLocation DiagPiece) (ento.getString DiagPiece)
            Note (ento.getRanges DiagPiece) C)
    Pieces Context
  = Context
      ++ map (fun P => mkTidyDiagnostic Name (ento.PieceLocation P)
                                        (ento.getString P) Note
                                        (ento.getRanges P))
             Pieces.
Proof.
  revert Context. induction Pieces as [|P Pieces IH]; intros Context; cbn.
  - now rewrite app_nil_r.
  - rewrite IH. unfold diag. now rewrite <- app_assoc.
Qed.

Lemma flushOne_shape (Context : ClangTidyContext) (PD : ento.PathDiagnostic)
      (Last : ento.PathDiagnosticPiece) :
  ento.back (ento.path PD) = Some Last ->
  exists Primary Notes0,
    flushOne Context PD = Some (Context ++ Primary :: Notes0)
    /\ primaryOf PD Primary
    /\ Ranges Primary = ento.getRanges Last
    /\ Forall2 (noteOf (AnalyzerCheckNamePrefix ++ ento.getCheckName PD)%string)
               (ento.flatten (ento.path PD) true) Notes0.
Proof.
  intros Hback. unfold flushOne. rewrite Hback, fold_diag_notes.
  unfold diag. rewrite <- app_assoc. cbn [app].
  eexists. eexists. split; [reflexivity|].
  split; [repeat split|]. split; [reflexivity|].
  induction (ento.flatten (ento.path PD) true) as [|P Ps IH]; cbn [map];
    constructor; [repeat split|exact IH].
Qed.

End FlushFacts.

(** C5: when every path has a last piece, [FlushDiagnosticsImpl] returns,
    and for each path diagnostic in turn it has added one primary diagnostic
    (level Warning, the short description as message, the prefix
    "clang-analyzer-" followed by the checker's name as check name, at the
    diagnostic's location) followed by one Note per piece of the flattened
    path, in path order, under the same check name. *)
Theorem FlushDiagnosticsImpl_emits {PI : ento.PathPiecesInterface}
        (Diags0 : list ento.PathDiagnostic) (Context : ClangTidyContext)
        (Hpaths : Forall (fun PD => ento.back (ento.path PD) <> None) Diags0) :
  exists Emitted : list (list TidyDiagnostic),
    FlushDiagnosticsImpl Diags0 Context = Some (Context ++ List.concat Emitted)
    /\ Forall2
         (fun PD Ds =>
            exists Primary Notes0,
              Ds = Primary :: Notes0
              /\ primaryOf PD Primary
              /\ Forall2
                   (noteOf (AnalyzerCheckNamePrefix ++ ento.getCheckName PD)%string)
                   (ento.flatten (ento.path PD) true) Notes0)
         Diags0 Emitted.
Proof.
  revert Context. induction Hpaths as [|PD Rest Hback _ IH]; intros Context.
  - exists []. cbn. rewrite app_nil_r. split; [reflexivity|constructor].
  - destruct (ento.back (ento.path PD)) as [Last|] eqn:Hlast; [|congruence].
    destruct (flushOne_shape Context PD Last Hlast)
      as (Primary & Notes0 & Hflush & Hprim & _ & Hnotes).
    destruct (IH (Context ++ Primary :: Notes0)) as (Emitted & Hrest & Hall).
    exists ((Primary :: Notes0) :: Emitted).
    cbn [FlushDiagnosticsImpl List.concat]. rewrite Hflush, Hrest.
    rewrite <- app_assoc. split; [reflexivity|].
    constructor; [|exact Hall].
    exists Primary, Notes0. auto.
Qed.

Lemma FlushDiagnosticsImpl_emits_witness :
  FlushDiagnosticsImpl (PI := FlatPath.Interface) [Scenario.finding] []
  = Some
      [mkTidyDiagnostic "clang-analyzer-core.NullDereference"
                        (mkLoc Scenario.fileA 9) "Dereference of null pointer"
                        Warning [];
       mkTidyDiagnostic "clang-analyzer-core.NullDereference"
                        (mkLoc Scenario.fileA 4) "Value assigned to 'p'"
                        Note [];
       mkTidyDiagnostic "clang-analyzer-core.NullDereference"
                        (mkLoc Scenario.fileA 9) "Dereference of null pointer"
                        Note []]
  /\ exists Emitted : list (list TidyDiagnostic),
       FlushDiagnosticsImpl (PI := FlatPath.Interface) [Scenario.finding] []
       = Some ([] ++ List.concat Emitted)
       /\ List.length Emitted = 1%nat.
Proof.
  split; [reflexivity|].
  assert (Hpaths : Forall (fun PD : ento.PathDiagnostic (PI := FlatPath.Interface) =>
                             ento.back (ento.path PD) <> None)
                          [Scenario.finding]).
  { constructor; [cbn; discriminate|constructor]. }
  destruct (FlushDiagnosticsImpl_emits (PI := FlatPath.Interface)
              [Scenario.finding] [] Hpaths) as (Emitted & Hrun & Hall).
  exists Emitted. split; [exact Hrun|].
  apply Forall2_length in Hall. now rewrite <- Hall.
Defined.

(* ================================================================== *)
(** * Further properties *)

(** ** The reporter's output *)



(** X2: the main diagnostic of an error comes right after what was already
    emitted; it has the error's level, the format "%0 [%1]" filled with the
    message and the check name, and one fix-it hint per replacement, in
    order, over the range from the edit's start to start plus length,
    whether or not fixes are being applied. *)
Theorem main_diagnostic_carries_hints {RI : RewriterInterface}
        (Disk : FileSystem) (E : ClangTidyError) (R : ErrorReporter) :
  exists D : Diagnostic,
    nth_error (Diags (reportDiagnostic Disk E R)) (List.length (Diags R))
    = Some D
    /\ ID D = CustomDiagID (DiagLevel E) "%0 [%1]"
    /\ Args D = [Message (ErrorMessage E); CheckName E]
    /\ DiagLoc D
       = getLocation (FilePath (ErrorMessage E)) (FileOffset (ErrorMessage E))
    /\ map CodeToInsert (FixItHints D) = map getReplacementText (Fix E)
    /\ map RemoveRange (FixItHints D)
       = map (fun F =>
                (getLocation (getFilePath F) (getOffset F),
                 getLocWithOffset (getLocation (getFilePath F) (getOffset F))
                                  (getLength F)))
             (Fix E).
Proof.
  exists (mainDiagnostic E). rewrite reportDiagnostic_closed. cbn [Diags].
  split.
  - rewrite nth_error_app2 by apply Nat.le_refl. now rewrite Nat.sub_diag.
  - unfold mainDiagnostic. cbn [ID Args DiagLoc FixItHints].
    rewrite !map_map. repeat split; reflexivity.
Qed.

Lemma attempts_Logged (RI : RewriterInterface) (Disk : @FileSystem RI)
      (Fixes : list Replacement) (RW : @Rewriter RI) (Log : list Replacement) :
  attempts (RI := Logged RI) Disk Fixes (RW, Log)
  = (outcomes (RI := RI) Disk Fixes RW,
     (snd (attempts (RI := RI) Disk Fixes RW),
      Log ++ filter (@isApplicable RI) Fixes)).
Proof.
  unfold outcomes. revert RW Log.
  induction Fixes as [|F Fixes IH]; intros RW Log.
  - cbn. now rewrite app_nil_r.
  - cbn [attempts filter]. unfold attempt.
    change (@isApplicable (Logged RI) F) with (@isApplicable RI F).
    destruct (@isApplicable RI F).
    + cbn [Logged Replacement_apply fst snd].
      destruct (@Replacement_apply RI Disk F RW) as [ok RW1].
      rewrite IH.
      destruct (attempts (RI := RI) Disk Fixes RW1) as [oks RW2].
      cbn [fst snd]. now rewrite <- app_assoc.
    + rewrite IH.
      destruct (attempts (RI := RI) Disk Fixes RW) as [oks RW2].
      reflexivity.
Qed.

(** X3: [apply] is called exactly on the applicable replacements, once each
    and in report order, when fixes are being applied, and never in a dry
    run; a replacement that is not applicable never reaches the rewriter. *)
Theorem apply_called_on_applicable_only (RI : RewriterInterface)
        (Disk : @FileSystem RI) (Errors : list ClangTidyError) (Fix0 : bool) :
  let Seen := reportAll (RI := Logged RI) Disk Errors (newErrorReporter Fix0) in
  let Plain := reportAll (RI := RI) Disk Errors (newErrorReporter Fix0) in
  snd (Rewrite Seen)
  = (if Fix0 then filter (@isApplicable RI) (allFixes Errors) else [])
  /\ fst (Rewrite Seen) = Rewrite Plain
  /\ ledger Seen = ledger Plain.
Proof.
  cbn zeta.
  pose proof (reportAll_closed (RI := Logged RI) Disk Errors
                               (newErrorReporter Fix0))
    as (_ & Ht & Hp & Hr & _).
  pose proof (reportAll_closed (RI := RI) Disk Errors (newErrorReporter Fix0))
    as (_ & Ht' & Hp' & Hr' & _).
  cbn [newErrorReporter ApplyFixes TotalFixes AppliedFixes Rewrite]
    in Ht, Hp, Hr, Ht', Hp', Hr'.
  unfold ledger. rewrite Ht, Hp, Hr, Ht', Hp', Hr'.
  destruct Fix0; [|repeat split; reflexivity].
  unfold outcomes.
  change (@emptyRewriter (Logged RI)) with (@emptyRewriter RI, @nil Replacement).
  rewrite attempts_Logged. cbn [fst snd app]. repeat split; reflexivity.
Qed.


(** X5: when no reported error carries a replacement, the run writes no
    file and prints no summary even if fixes were asked for, and the
    rewriter is never touched. *)
Theorem no_replacements_nothing_written {RI : RewriterInterface}
        (Disk : FileSystem) (Errors : list ClangTidyError) (Fix0 : bool)
        (errs0 : string) (Hnone : allFixes Errors = []) :
  snd (handleErrors Disk Errors Fix0 errs0) = mkProcess errs0 Disk
  /\ Rewrite (fst (handleErrors Disk Errors Fix0 errs0)) = emptyRewriter
  /\ ledger (fst (handleErrors Disk Errors Fix0 errs0)) = (0, 0).
Proof.
  unfold handleErrors, ledger. cbn [fst snd].
  pose proof (reportAll_closed Disk Errors (newErrorReporter Fix0))
    as (_ & Ht & Hp & Hr & _).
  cbn [newErrorReporter ApplyFixes TotalFixes AppliedFixes Rewrite] in Ht, Hp, Hr.
  rewrite Hnone in Ht, Hp, Hr. cbn in Ht, Hp, Hr.
  assert (Hp0 : AppliedFixes (reportAll Disk Errors (newErrorReporter Fix0)) = 0)
    by (rewrite Hp; now destruct Fix0).
  assert (Hr0 : Rewrite (reportAll Disk Errors (newErrorReporter Fix0))
                = emptyRewriter)
    by (rewrite Hr; now destruct Fix0).
  unfold Finish. rewrite Ht, Hp0, Hr0. cbn. rewrite andb_false_r.
  repeat split; reflexivity.
Qed.

Lemma no_replacements_nothing_written_witness :
  let Plain :=
    mkError "misc-one" (mkMessage "no fix offered" Scenario.fileA 3) []
            [mkMessage "see" Scenario.fileA 0] Warning in
  snd (handleErrors (RI := TextRewriter.Interface) Scenario.disk
                    [Plain; Plain] true "")
  = @mkProcess TextRewriter.Interface "" Scenario.disk.
Proof.
  intros Plain.
  exact (proj1 (no_replacements_nothing_written
                  (RI := TextRewriter.Interface) Scenario.disk [Plain; Plain]
                  true "" eq_refl)).
Defined.

Lemma map_fixNote_failed (Ls : list SourceLocation) (Bs : list bool) :
  List.length Ls = List.length Bs ->
  (List.length (filter isFailedNote (map fixNote (combine Ls Bs)))
   + count_true Bs)%nat
  = List.length Bs.
Proof.
  revert Bs. induction Ls as [|l Ls IH]; intros [|b Bs] Hl; try discriminate.
  - reflexivity.
  - injection Hl as Hl. specialize (IH Bs Hl).
    unfold count_true in *. destruct b; cbn in *; lia.
Qed.

Lemma filter_failed_fixStatus (Ds : list Diagnostic) :
  filter isFailedNote (fixStatusNotes Ds) = filter isFailedNote Ds.
Proof.
  unfold fixStatusNotes.
  induction Ds as [|[loc [lv fmt| |] args hints] Ds IH]; [reflexivity| | |];
    cbn; now rewrite IH.
Qed.

(** X6: when fixes are applied, every replacement is accounted for by one
    note: the notes saying "failed" are as many as [TotalFixes] minus
    [AppliedFixes] (for a run whose number of replacements fits the 32-bit
    counters). *)
Theorem failed_notes_account {RI : RewriterInterface} (Disk : FileSystem)
        (Errors : list ClangTidyError)
        (Hfits : Z.of_nat (List.length (allFixes Errors)) < unsigned.modulus) :
  let R := reportAll Disk Errors (newErrorReporter true) in
  Z.of_nat (List.length (filter isFailedNote (Diags R)))
  = TotalFixes R - AppliedFixes R
  /\ (List.length (fixStatusNotes (Diags R)) = List.length (allFixes Errors)).
Proof.
  cbn zeta.
  destruct (ledger_modular Disk Errors true) as (Ht & Hp & _).
  pose proof (reportAll_closed Disk Errors (newErrorReporter true))
    as (_ & _ & _ & _ & Hn).
  cbn [newErrorReporter ApplyFixes Rewrite Diags fixStatusNotes filter app]
    in Hn.
  pose proof (attempts_length Disk (allFixes Errors) emptyRewriter) as Hlen.
  pose proof (count_true_le (outcomes Disk (allFixes Errors) emptyRewriter))
    as Hle.
  pose proof (map_fixNote_failed
                (map FixLoc (allFixes Errors))
                (outcomes Disk (allFixes Errors) emptyRewriter)) as Hf.
  rewrite length_map, Hlen in Hf. specialize (Hf eq_refl).
  rewrite <- filter_failed_fixStatus, Hn, Ht, Hp.
  unfold unsigned.wrap. rewrite !Z.mod_small by lia.
  split; [lia|].
  now rewrite length_map, length_combine, length_map, Hlen, Nat.min_id.
Qed.

Lemma failed_notes_account_witness :
  let R := reportAll (RI := TextRewriter.Interface) Scenario.disk
             [Scenario.D1; Scenario.D3; Scenario.D2] (newErrorReporter true) in
  Z.of_nat (List.length (filter isFailedNote (Diags R))) = 1
  /\ TotalFixes R - AppliedFixes R = 1.
Proof.
  assert (Hfits : Z.of_nat (List.length
                              (allFixes [Scenario.D1; Scenario.D3; Scenario.D2]))
                  < unsigned.modulus) by (vm_compute; reflexivity).
  pose proof (proj1 (failed_notes_account (RI := TextRewriter.Interface)
                       Scenario.disk
                       [Scenario.D1; Scenario.D3; Scenario.D2] Hfits)) as H.
  cbn zeta in *. split; [|reflexivity].
  rewrite H. reflexivity.
Defined.

(** ** Selecting checks *)

Lemma passes_monotone (Filter Filter' : ChecksFilter) (Name : string) :
  (forall N, Filter N = true -> Filter' N = true) ->
  passesAsAnalyzerCheck Filter Name = true ->
  passesAsAnalyzerCheck Filter' Name = true.
Proof.
  unfold passesAsAnalyzerCheck, isCheckEnabled. intros Hle H.
  apply andb_true_iff in H. destruct H as [Hd He].
  rewrite Hd. cbn. now apply Hle.
Qed.

(** X7: enabling more never removes an analyzer checker: if every name the
    first filter enables is enabled by the second, the control list of the
    first is included in the control list of the second. *)
Theorem control_list_monotone (StaticAnalyzerChecks : list string)
        (Filter Filter' : ChecksFilter)
        (Hle : forall Name, Filter Name = true -> Filter' Name = true) :
  incl (getCheckersControlList StaticAnalyzerChecks Filter)
       (getCheckersControlList StaticAnalyzerChecks Filter').
Proof.
  intros [Name b] Hin. apply in_control_list in Hin.
  destruct Hin as (Hb & HT & He & Hq). apply in_control_list.
  split; [exact Hb|]. split; [exact HT|]. split.
  - apply existsb_exists in He. destruct He as (n & Hn & Hp).
    apply existsb_exists. exists n. split; [exact Hn|].
    now apply (passes_monotone Filter).
  - destruct Hq as [Hc|Hp]; [now left|right].
    now apply (passes_monotone Filter).
Qed.

Lemma control_list_monotone_witness :
  incl (getCheckersControlList Scenario.checkers Scenario.onlyUnix)
       (getCheckersControlList Scenario.checkers (fun _ => true)).
Proof.
  apply (control_list_monotone Scenario.checkers Scenario.onlyUnix
                               (fun _ => true)).
  intros Name _. reflexivity.
Defined.

(** X8: every entry of the control list is switched on, and the names are
    checkers of the table in table order, each at most as often as the table
    has it; so a table without repetition gives a list without
    repetition, never longer than the table. *)
Theorem control_list_shape (StaticAnalyzerChecks : list string)
        (Filter : ChecksFilter) :
  let List0 := getCheckersControlList StaticAnalyzerChecks Filter in
  Forall (fun Entry => snd Entry = true) List0
  /\ (exists keep : string -> bool,
         map fst List0 = filter keep StaticAnalyzerChecks)
  /\ (NoDup StaticAnalyzerChecks -> NoDup (map fst List0))
  /\ (List.length List0 <= List.length StaticAnalyzerChecks)%nat.
Proof.
  cbn zeta. rewrite getCheckersControlList_closed.
  destruct (existsb _ _).
  - rewrite map_map. cbn [fst]. rewrite map_id, length_map.
    split; [apply Forall_forall; intros e He; apply in_map_iff in He;
            destruct He as (n & <- & _); reflexivity|].
    split; [eexists; reflexivity|].
    split; [apply NoDup_filter|apply filter_length_le].
  - split; [constructor|]. split.
    + exists (fun _ => false).
      induction StaticAnalyzerChecks as [|n l IH]; [reflexivity|exact IH].
    + split; [intros _; constructor|cbn; lia].
Qed.

Lemma control_list_shape_witness :
  NoDup (map fst (getCheckersControlList Scenario.checkers Scenario.onlyUnix)).
Proof.
  apply (proj1 (proj2 (proj2 (control_list_shape Scenario.checkers
                                                 Scenario.onlyUnix)))).
  repeat constructor; cbn; intuition discriminate.
Defined.

(** X9: with every name enabled the control list holds exactly the checkers
    of the table that are not debug checkers, in table order. *)
Theorem all_enabled_control_list (StaticAnalyzerChecks : list string) :
  getCheckersControlList StaticAnalyzerChecks (fun _ => true)
  = map (fun Name => (Name, true))
        (filter (fun Name => negb (startswith Name "debug"))
                StaticAnalyzerChecks).
Proof.
  rewrite getCheckersControlList_closed.
  assert (Hp : forall Name,
             passesAsAnalyzerCheck (fun _ => true) Name
             = negb (startswith Name "debug")).
  { intros Name. unfold passesAsAnalyzerCheck, isCheckEnabled.
    apply andb_true_r. }
  destruct (existsb _ _) eqn:He.
  - f_equal. apply filter_ext. intros Name. rewrite Hp.
    destruct (startswith Name "core") eqn:Hc; [|reflexivity].
    now rewrite (core_is_not_debug Name Hc).
  - symmetry. rewrite (filter_ext_in _ (fun _ => false)).
    + clear He. induction StaticAnalyzerChecks as [|n l IH]; [reflexivity|exact IH].
    + intros Name Hin. rewrite <- Hp.
      destruct (passesAsAnalyzerCheck (fun _ => true) Name) eqn:Hpass;
        [|reflexivity].
      assert (Ht : existsb (passesAsAnalyzerCheck (fun _ => true))
                           StaticAnalyzerChecks = true)
        by (apply existsb_exists; eauto).
      congruence.
Qed.

Lemma sorted_permutation_unique (l1 l2 : list string) :
  StronglySorted string_le l1 -> StronglySorted string_le l2 ->
  Permutation l1 l2 -> l1 = l2.
Proof.
  revert l2. induction l1 as [|a l1 IH]; intros l2 H1 H2 Hp.
  - now apply Permutation_nil in Hp.
  - destruct l2 as [|b l2];
      [apply Permutation_sym, Permutation_nil in Hp; discriminate Hp|].
    apply StronglySorted_inv in H1. destruct H1 as [H1 Ha].
    apply StronglySorted_inv in H2. destruct H2 as [H2 Hb].
    rewrite Forall_forall in Ha, Hb.
    assert (Hab : a = b).
    { assert (Hina : In a (b :: l2))
        by (apply (Permutation_in _ Hp); now left).
      assert (Hinb : In b (a :: l1))
        by (apply (Permutation_in _ (Permutation_sym Hp)); now left).
      destruct Hina as [->|Hina]; [reflexivity|].
      destruct Hinb as [->|Hinb]; [reflexivity|].
      apply String.leb_antisym; [apply Ha, Hinb|apply Hb, Hina]. }
    subst b. f_equal. apply IH; try assumption.
    now apply Permutation_cons_inv with a.
Qed.

Lemma Permutation_filter_same {A : Type} (p : A -> bool) (l l' : list A) :
  Permutation l l' -> Permutation (filter p l) (filter p l').
Proof.
  induction 1 as [|x l l' _ IH|x y l|l l' l'' _ IH1 _ IH2]; cbn.
  - constructor.
  - destruct (p x); [now constructor|exact IH].
  - destruct (p x), (p y); try apply Permutation_refl. apply perm_swap.
  - now apply Permutation_trans with (filter p l').
Qed.

Lemma existsb_Permutation {A : Type} (p : A -> bool) (l l' : list A) :
  Permutation l l' -> existsb p l = existsb p l'.
Proof.
  intros Hp. destruct (existsb p l') eqn:He.
  - apply existsb_exists in He. destruct He as (x & Hx & Hpx).
    apply existsb_exists. exists x. split; [|exact Hpx].
    now apply (Permutation_in _ (Permutation_sym Hp)).
  - destruct (existsb p l) eqn:He'; [|reflexivity].
    apply existsb_exists in He'. destruct He' as (x & Hx & Hpx).
    assert (Ht : existsb p l' = true)
      by (apply existsb_exists; exists x; split;
          [now apply (Permutation_in _ Hp)|exact Hpx]).
    congruence.
Qed.

(** X10: the inventory does not depend on the order in which the factories
    are visited nor on the order of the analyzer's checker table:
    rearranging either gives the same list of names. *)
Theorem inventory_order_independent (Table Table' : list string)
        (CheckFactoryBase : Type)
        (Factories Factories' : list (string * CheckFactoryBase))
        (Filter : ChecksFilter)
        (HT : Permutation Table Table')
        (HF : Permutation Factories Factories') :
  getCheckNames Table CheckFactoryBase Factories Filter
  = getCheckNames Table' CheckFactoryBase Factories' Filter.
Proof.
  rewrite !getCheckNames_closed.
  apply sorted_permutation_unique.
  - apply StringSort.StronglySorted_sort, string_leb_Transitive.
  - apply StringSort.StronglySorted_sort, string_leb_Transitive.
  - eapply Permutation_trans;
      [apply Permutation_sym, StringSort.Permuted_sort|].
    eapply Permutation_trans; [|apply StringSort.Permuted_sort].
    apply Permutation_app.
    + apply Permutation_map, Permutation_filter_same, HF.
    + apply Permutation_map. rewrite !getCheckersControlList_closed.
      rewrite (existsb_Permutation _ _ _ HT).
      destruct (existsb _ Table'); [|constructor].
      apply Permutation_map, Permutation_filter_same, HT.
Qed.

Lemma inventory_order_independent_witness :
  getCheckNames Scenario.checkers unit Scenario.factories Scenario.everything
  = getCheckNames (rev Scenario.checkers) unit (rev Scenario.factories)
                  Scenario.everything.
Proof.
  apply (inventory_order_independent Scenario.checkers (rev Scenario.checkers)
                                     unit Scenario.factories
                                     (rev Scenario.factories)
                                     Scenario.everything);
    apply Permutation_rev.
Defined.

(** ** Analyzer diagnostics, further *)

Lemma startswith_append (Prefix Rest : string) :
  startswith (Prefix ++ Rest)%string Prefix = true.
Proof.
  unfold startswith. induction Prefix as [|c Prefix IH]; cbn [append prefix].
  - now destruct Rest.
  - destruct (ascii_dec c c) as [_|Hc]; [exact IH|now elim Hc].
Qed.

Lemma flushOne_closed {PI : ento.PathPiecesInterface}
      (Context : ClangTidyContext) (PD : ento.PathDiagnostic)
      (Last : ento.PathDiagnosticPiece) :
  ento.back (ento.path PD) = Some Last ->
  flushOne Context PD
  = Some (Context
            ++ mkTidyDiagnostic
                 (AnalyzerCheckNamePrefix ++ ento.getCheckName PD)%string
                 (ento.getLocation PD) (ento.getShortDescription PD)
                 Warning (ento.getRanges Last)
            :: map (fun P =>
                      mkTidyDiagnostic
                        (AnalyzerCheckNamePrefix ++ ento.getCheckName PD)%string
                        (ento.PieceLocation P) (ento.getString P) Note
                        (ento.getRanges P))
                   (ento.flatten (ento.path PD) true)).
Proof.
  intros Hback. unfold flushOne. rewrite Hback, fold_diag_notes.
  unfold diag. now rewrite <- app_assoc.
Qed.

(** X11: when [FlushDiagnosticsImpl] returns, the diagnostics that were in
    the context stay in front, unchanged; every diagnostic added has a check
    name that starts with "clang-analyzer-"; and there are as many added as
    path diagnostics plus pieces of their flattened paths. *)
Theorem analyzer_diagnostics_under_prefix {PI : ento.PathPiecesInterface}
        (Diags0 : list ento.PathDiagnostic)
        (Context Context' : ClangTidyContext)
        (Hrun : FlushDiagnosticsImpl Diags0 Context = Some Context') :
  exists New : list TidyDiagnostic,
    Context' = Context ++ New
    /\ Forall (fun D => startswith (TidyCheckName D) "clang-analyzer-" = true)
              New
    /\ List.length New
       = (List.length Diags0
          + List.length
              (flat_map (fun PD => ento.flatten (ento.path PD) true) Diags0))%nat.
Proof.
  revert Context Hrun. induction Diags0 as [|PD Rest IH]; intros Context Hrun.
  - cbn in Hrun. injection Hrun as <-. exists [].
    rewrite app_nil_r. repeat split. constructor.
  - cbn [FlushDiagnosticsImpl] in Hrun.
    destruct (ento.back (ento.path PD)) as [Last|] eqn:Hback;
      [|unfold flushOne in Hrun; rewrite Hback in Hrun; discriminate Hrun].
    rewrite (flushOne_closed Context PD Last Hback) in Hrun.
    destruct (IH _ Hrun) as (New & -> & Hall & Hlen).
    eexists. rewrite <- app_assoc. split; [reflexivity|]. split.
    + cbn [app]. constructor; [apply startswith_append|].
      apply Forall_app. split; [|exact Hall].
      apply Forall_forall. intros D HD. apply in_map_iff in HD.
      destruct HD as (P & <- & _). apply startswith_append.
    + cbn [app List.length flat_map].
      rewrite !length_app, length_map, Hlen. lia.
Qed.

Lemma analyzer_diagnostics_under_prefix_witness :
  exists New : list TidyDiagnostic,
    FlushDiagnosticsImpl (PI := FlatPath.Interface) [Scenario.finding] []
    = Some ([] ++ New)
    /\ List.length New = 3%nat.
Proof.
  destruct (analyzer_diagnostics_under_prefix
              (PI := FlatPath.Interface) [Scenario.finding] [] _ eq_refl)
    as (New & HN & _ & Hlen).
  exists New. split; [|exact Hlen].
  rewrite <- HN. reflexivity.
Defined.

(** X12: the primary diagnostic of a path diagnostic carries the source
    ranges of the last piece of the path as it is, not flattened; each note
    carries the ranges of its own piece. *)
Theorem analyzer_diagnostic_ranges {PI : ento.PathPiecesInterface}
        (PD : ento.PathDiagnostic) (Last : ento.PathDiagnosticPiece)
        (Context : ClangTidyContext)
        (Hback : ento.back (ento.path PD) = Some Last) :
  exists Primary Notes0,
    FlushDiagnosticsImpl [PD] Context = Some (Context ++ Primary :: Notes0)
    /\ Ranges Primary = ento.getRanges Last
    /\ map Ranges Notes0
       = map ento.getRanges (ento.flatten (ento.path PD) true).
Proof.
  cbn [FlushDiagnosticsImpl]. rewrite (flushOne_closed Context PD Last Hback).
  eexists. eexists. split; [reflexivity|]. split; [reflexivity|].
  now rewrite map_map.
Qed.

Lemma analyzer_diagnostic_ranges_witness :
  let Blamed := ento.mkPiece (mkLoc Scenario.fileA 9) "Dereference"
                             [(mkLoc Scenario.fileA 9, mkLoc Scenario.fileA 11)] in
  let PD := ento.mkPathDiagnostic FlatPath.Interface "core.NullDereference"
                                  (mkLoc Scenario.fileA 9) "Dereference"
                                  [Scenario.step1; Blamed] in
  exists Primary Notes0,
    FlushDiagnosticsImpl (PI := FlatPath.Interface) [PD] []
    = Some ([] ++ Primary :: Notes0)
    /\ Ranges Primary = [(mkLoc Scenario.fileA 9, mkLoc Scenario.fileA 11)].
Proof.
  intros Blamed PD.
  destruct (analyzer_diagnostic_ranges (PI := FlatPath.Interface) PD Blamed []
                                       eq_refl)
    as (Primary & Notes0 & Hrun & HR & _).
  exists Primary, Notes0. split; [exact Hrun|exact HR].
Defined.

(** ** The consumers of a translation unit *)

(** X13: [CreateASTConsumer] creates at most two consumers, the match
    finder's first: the match finder's exactly when at least one check was
    created, holding the created checks in creation order, and the
    analyzer's exactly when some checker of the table that is not a debug
    checker passes the filter.  With nothing enabled there is no consumer at
    all. *)
Theorem consumers_created (StaticAnalyzerChecks : list string)
        (AnalysisStores AnalysisDiagClients : Type)
        (RegionStoreModel : AnalysisStores) (PD_NONE : AnalysisDiagClients)
        (createChecks : ChecksFilter -> list ClangTidyCheck.t)
        (Filter : ChecksFilter) (AnalyzeTemporaryDtors : bool)
        (Opts : AnalyzerOptions AnalysisStores AnalysisDiagClients) :
  let Created :=
    fst (CreateASTConsumer StaticAnalyzerChecks AnalysisStores
                           AnalysisDiagClients RegionStoreModel PD_NONE
                           createChecks Filter AnalyzeTemporaryDtors Opts) in
  Consumers Created
  = (if match createChecks Filter with [] => true | _ => false end then []
     else [MatchFinderConsumer (createChecks Filter)])
      ++ (if existsb (passesAsAnalyzerCheck Filter) StaticAnalyzerChecks
          then [AnalysisASTConsumer ["ClangTidyDiags"]] else [])
  /\ Checks Created = createChecks Filter
  /\ Finder Created = createChecks Filter.
Proof.
  cbn zeta. unfold CreateASTConsumer.
  rewrite (fold_collect (fun C : ClangTidyCheck.t => C)), map_id. cbn [app].
  cbn [CheckersControlList].
  pose proof (control_list_nonempty StaticAnalyzerChecks Filter) as Hne.
  destruct (getCheckersControlList StaticAnalyzerChecks Filter) as [|e l] eqn:HL.
  - destruct (existsb _ _); cbn [fst Consumers Checks Finder].
    + exfalso. apply (proj2 Hne); reflexivity.
    + rewrite app_nil_r. repeat split; reflexivity.
  - rewrite (proj1 Hne) by discriminate. cbn [fst Consumers Checks Finder].
    repeat split; reflexivity.
Qed.

(** X14: whatever the filter, [CreateASTConsumer] sets the analyzer's
    "cfg-temporary-dtors" entry to "true" or "false" after the option
    [AnalyzeTemporaryDtors], leaves the other entries as they were and
    stores the control list; the store model, the diagnostics client and the
    two flags are written only when the control list is not empty, and are
    left untouched otherwise. *)
Theorem analyzer_options_written (StaticAnalyzerChecks : list string)
        (AnalysisStores AnalysisDiagClients : Type)
        (RegionStoreModel : AnalysisStores) (PD_NONE : AnalysisDiagClients)
        (createChecks : ChecksFilter -> list ClangTidyCheck.t)
        (Filter : ChecksFilter) (AnalyzeTemporaryDtors : bool)
        (Opts : AnalyzerOptions AnalysisStores AnalysisDiagClients) :
  let Opts' :=
    snd (CreateASTConsumer StaticAnalyzerChecks AnalysisStores
                           AnalysisDiagClients RegionStoreModel PD_NONE
                           createChecks Filter AnalyzeTemporaryDtors Opts) in
  let Enabled := existsb (passesAsAnalyzerCheck Filter) StaticAnalyzerChecks in
  Config Opts' "cfg-temporary-dtors"
  = Some (if AnalyzeTemporaryDtors then "true" else "false")
  /\ (forall Key, Key <> "cfg-temporary-dtors" ->
                  Config Opts' Key = Config Opts Key)
  /\ CheckersControlList Opts'
     = getCheckersControlList StaticAnalyzerChecks Filter
  /\ AnalysisStoreOpt Opts'
     = (if Enabled then RegionStoreModel else AnalysisStoreOpt Opts)
  /\ AnalysisDiagOpt Opts'
     = (if Enabled then PD_NONE else AnalysisDiagOpt Opts)
  /\ AnalyzeNestedBlocks Opts'
     = (if Enabled then true else AnalyzeNestedBlocks Opts)
  /\ eagerlyAssumeBinOpBifurcation Opts'
     = (if Enabled then true else eagerlyAssumeBinOpBifurcation Opts).
Proof.
  cbn zeta. unfold CreateASTConsumer. cbn [CheckersControlList Config].
  pose proof (control_list_nonempty StaticAnalyzerChecks Filter) as Hne.
  assert (Hkey : forall Key, Key <> "cfg-temporary-dtors" ->
                   StringMap_assign (Config Opts) "cfg-temporary-dtors"
                     (if AnalyzeTemporaryDtors then "true" else "false") Key
                   = Config Opts Key).
  { intros Key HK. unfold StringMap_assign.
    destruct (String.eqb_spec Key "cfg-temporary-dtors"); congruence. }
  destruct (getCheckersControlList StaticAnalyzerChecks Filter) as [|e l] eqn:HL.
  - destruct (existsb _ _).
    + exfalso. apply (proj2 Hne); reflexivity.
    + cbn. auto 10.
  - rewrite (proj1 Hne) by discriminate. cbn. auto 10.
Qed.

(** ** The closing comment and its pattern *)

Section RegexFacts.

Import Regex.
Local Open Scope nat_scope.

Section Steps.

Variable ic : bool.

Lemma step_Char c r k d s pos caps :
  sameChar ic c d = true ->
  run ic (Cat (Char c) r) k (d :: s) pos caps = run ic r k s (S pos) caps.
Proof. intros H. cbn [run]. now rewrite H. Qed.

Lemma step_Bracket B r k d s pos caps :
  inBracket ic B d = true ->
  run ic (Cat (Bracket B) r) k (d :: s) pos caps = run ic r k s (S pos) caps.
Proof. intros H. cbn [run]. now rewrite H. Qed.

Lemma step_Bol r k s caps :
  run ic (Cat Bol r) k s 0 caps = run ic r k s 0 caps.
Proof. reflexivity. Qed.

Lemma loop_Char_stop c k fuel s pos caps :
  headIs (sameChar ic c) s = false ->
  loop (run ic (Char c)) k fuel s pos caps = k s pos caps.
Proof.
  intros H. destruct fuel; [reflexivity|]. cbn [loop run].
  destruct s as [|d s]; [reflexivity|]. cbn in H. now rewrite H.
Qed.

Lemma step_Star_stop c r k s pos caps :
  headIs (sameChar ic c) s = false ->
  run ic (Cat (Star (Char c)) r) k s pos caps = run ic r k s pos caps.
Proof. intros H. cbn [run]. now apply loop_Char_stop. Qed.

Lemma step_Star_one c r k d s pos caps res :
  sameChar ic c d = true ->
  headIs (sameChar ic c) s = false ->
  run ic r k s (S pos) caps = Some res ->
  run ic (Cat (Star (Char c)) r) k (d :: s) pos caps = Some res.
Proof.
  intros Hd Hs Hk.
  change (run ic (Cat (Star (Char c)) r) k (d :: s) pos caps)
    with (match (if sameChar ic c d
                 then if (pos <? S pos)%nat
                      then loop (run ic (Char c)) (run ic r k)
                                (List.length s) s (S pos) caps
                      else None
                 else None) with
          | Some res0 => Some res0
          | None => run ic r k (d :: s) pos caps
          end).
  rewrite Hd, (proj2 (Nat.ltb_lt pos (S pos)) (Nat.lt_succ_diag_r pos)).
  rewrite loop_Char_stop by exact Hs. now rewrite Hk.
Qed.

Lemma step_Opt_fail r1 r k s pos caps :
  (forall k', run ic r1 k' s pos caps = None) ->
  run ic (Cat (Opt r1) r) k s pos caps = run ic r k s pos caps.
Proof. intros H. cbn [run]. now rewrite H. Qed.

Lemma fail_Group_Char i c r d s pos caps k :
  sameChar ic c d = false ->
  run ic (Group i (Cat (Char c) r)) k (d :: s) pos caps = None.
Proof. intros H. cbn [run]. now rewrite H. Qed.

Lemma fail_Group_Alt_Char i c1 r1 c2 r2 d s pos caps k :
  sameChar ic c1 d = false -> sameChar ic c2 d = false ->
  run ic (Group i (Alt (Cat (Char c1) r1) (Cat (Char c2) r2))) k (d :: s) pos caps
  = None.
Proof. intros H1 H2. cbn [run]. now rewrite H1, H2. Qed.

Lemma fail_Group_nil i c r pos caps k :
  run ic (Group i (Cat (Char c) r)) k [] pos caps = None.
Proof. reflexivity. Qed.

Lemma loop_Bracket_all B k (t : list ascii) :
  forallb (inBracket ic B) t = true ->
  forall fuel pos caps res,
    (List.length t <= fuel)%nat ->
    k [] (pos + List.length t)%nat caps = Some res ->
    loop (run ic (Bracket B)) k fuel t pos caps = Some res.
Proof.
  induction t as [|b t IH]; intros Hall fuel pos caps res Hfuel Hk.
  - cbn in Hk. rewrite Nat.add_0_r in Hk.
    destruct fuel; cbn [loop run]; exact Hk.
  - cbn in Hall. apply andb_true_iff in Hall. destruct Hall as [Hb Ht].
    destruct fuel as [|fuel]; [cbn in Hfuel; lia|].
    change (loop (run ic (Bracket B)) k (S fuel) (b :: t) pos caps)
      with (match (if inBracket ic B b
                   then if (pos <? S pos)%nat
                        then loop (run ic (Bracket B)) k fuel t (S pos) caps
                        else None
                   else None) with
            | Some res0 => Some res0
            | None => k (b :: t) pos caps
            end).
    rewrite Hb, (proj2 (Nat.ltb_lt pos (S pos)) (Nat.lt_succ_diag_r pos)).
    rewrite (IH Ht fuel (S pos) caps res); [reflexivity|cbn in Hfuel; lia|].
    cbn [List.length] in Hk. now rewrite Nat.add_succ_r in Hk.
Qed.

End Steps.

Lemma sameChar_refl ic c : sameChar ic c c = true.
Proof. unfold sameChar. destruct ic; apply Ascii.eqb_refl. Qed.

Lemma name_group ic i j B r k (t : list ascii) pos caps res :
  t <> [] ->
  forallb (inBracket ic B) t = true ->
  headIs (sameChar ic " ") t = false ->
  run ic r k [] (S pos + List.length t)
      ((i, String " " (string_of_list_ascii t))
         :: (j, string_of_list_ascii t) :: caps) = Some res ->
  run ic (Cat (Opt (Group i (Cat (Plus (Char " ")) (Group j (Plus (Bracket B))))))
              r)
      k (" "%char :: t) pos caps = Some res.
Proof.
  intros Hne Hall Hsp Hk.
  destruct t as [|b t']; [congruence|].
  cbn [forallb] in Hall. apply andb_true_iff in Hall. destruct Hall as [Hb Ht'].
  set (K4 := fun (s' : list ascii) (pos' : nat) (caps' : Captures) =>
               run ic r k s' pos'
                   ((i, string_of_list_ascii
                          (firstn (pos' - pos) (" "%char :: b :: t'))) :: caps')).
  set (k5 := fun (s' : list ascii) (pos' : nat) (caps' : Captures) =>
               K4 s' pos'
                  ((j, string_of_list_ascii (firstn (pos' - S pos) (b :: t')))
                     :: caps')).
  change (run ic (Cat (Opt (Group i (Cat (Plus (Char " "))
                                         (Group j (Plus (Bracket B)))))) r)
              k (" "%char :: b :: t') pos caps)
    with (match (if sameChar ic " " " "
                 then loop (run ic (Char " "))
                           (run ic (Group j (Plus (Bracket B))) K4)
                           (List.length (b :: t')) (b :: t') (S pos) caps
                 else None) with
          | Some res0 => Some res0
          | None => run ic r k (" "%char :: b :: t') pos caps
          end).
  rewrite sameChar_refl, loop_Char_stop by exact Hsp.
  change (run ic (Group j (Plus (Bracket B))) K4 (b :: t') (S pos) caps)
    with (if inBracket ic B b
          then loop (run ic (Bracket B)) k5 (List.length t') t' (S (S pos)) caps
          else None).
  rewrite Hb.
  rewrite (loop_Bracket_all ic B k5 t' Ht' (List.length t') (S (S pos)) caps res);
    [reflexivity|apply Nat.le_refl|].
  unfold k5, K4.
  replace (S (S pos) + List.length t' - S pos)%nat with (List.length (b :: t'))
    by (cbn [List.length]; lia).
  replace (S (S pos) + List.length t' - pos)%nat
    with (List.length (" "%char :: b :: t')) by (cbn [List.length]; lia).
  rewrite !firstn_all.
  replace (S (S pos) + List.length t')%nat with (S pos + List.length (b :: t'))%nat
    by (cbn [List.length]; lia).
  exact Hk.
Qed.

Lemma identifier_inBracket (c : ascii) :
  NamespaceCommentCheck.isIdentifierChar c = true ->
  inBracket true [("a", "z"); ("A", "Z"); ("0", "9"); ("_", "_")]%char c = true.
Proof.
  unfold NamespaceCommentCheck.isIdentifierChar, inBracket. cbn [existsb fst snd].
  intros H. repeat (apply orb_true_iff in H; destruct H as [H|H]);
    rewrite ?H, ?orb_true_r; try reflexivity.
  apply Ascii.eqb_eq in H. subst c. reflexivity.
Qed.

Lemma identifier_not_space (c : ascii) :
  NamespaceCommentCheck.isIdentifierChar c = true -> sameChar true " " c = false.
Proof.
  destruct c as [[|] [|] [|] [|] [|] [|] [|] [|]]; vm_compute; congruence.
Qed.

Lemma list_ascii_append (a b : string) :
  list_ascii_of_string (a ++ b) = list_ascii_of_string a ++ list_ascii_of_string b.
Proof. induction a as [|c a IH]; cbn; [reflexivity|now rewrite IH]. Qed.


Lemma NamespaceCommentPattern_compiles :
  compile NamespaceCommentCheck.NamespaceCommentPattern_text
  = Some NamespaceCommentCheck.CompiledPattern.
Proof. vm_compute. reflexivity. Qed.

Lemma named_comment_groups (Name : string) :
  NamespaceCommentCheck.validName Name ->
  match_ NamespaceCommentCheck.CompiledPattern true ("// namespace " ++ Name)
  = Some ["// namespace " ++ Name; ""; ""; ""; " " ++ Name; Name; ""]%string.
Proof.
  intros [Hne Hvalid].
  set (t := list_ascii_of_string Name) in *.
  assert (Ht : t <> []).
  { intros H. apply Hne. rewrite <- (string_of_list_ascii_of_string Name).
    fold t. now rewrite H. }
  assert (HB : forallb (inBracket true
                          [("a", "z"); ("A", "Z"); ("0", "9"); ("_", "_")]%char) t
               = true).
  { apply forallb_forall. intros c Hc.
    apply identifier_inBracket. now apply (proj1 (forallb_forall _ _) Hvalid). }
  assert (Hsp : headIs (sameChar true " ") t = false).
  { destruct t as [|c t']; [reflexivity|]. cbn [headIs].
    apply identifier_not_space. cbn in Hvalid.
    now apply andb_true_iff in Hvalid. }
  unfold match_. rewrite list_ascii_append.
  change (list_ascii_of_string "// namespace ")
    with ["/"; "/"; " "; "n"; "a"; "m"; "e"; "s"; "p"; "a"; "c"; "e"; " "]%char.
  fold t. cbn [app]. 
  set (s := ("/" :: "/" :: " " :: "n" :: "a" :: "m" :: "e" :: "s" :: "p" :: "a"
                 :: "c" :: "e" :: " " :: t)%char).
  assert (Hrun :
            run true (fst NamespaceCommentCheck.CompiledPattern)
                (fun s' pos' caps =>
                   Some ((0%nat, string_of_list_ascii (firstn (pos' - 0) s)) :: caps))
                s 0%nat []
            = Some [(0%nat, ("// namespace " ++ Name)%string);
                    (4%nat, (" " ++ Name)%string); (5%nat, Name)]).
  { unfold NamespaceCommentCheck.CompiledPattern, s. cbn [fst].
    rewrite step_Bol.
    rewrite step_Char by reflexivity.
    rewrite step_Bracket by reflexivity.
    apply step_Star_one; [reflexivity|reflexivity|].
    rewrite step_Opt_fail by (intros; apply fail_Group_Char; reflexivity).
    rewrite step_Star_stop by reflexivity.
    rewrite step_Opt_fail by (intros; apply fail_Group_Alt_Char; reflexivity).
    rewrite step_Star_stop by reflexivity.
    do 9 (rewrite step_Char by reflexivity).
    apply name_group; [exact Ht|exact HB|exact Hsp|].
    cbn [run List.length loop].
    replace (13 + List.length t - 0)%nat
      with (List.length ("/" :: "/" :: " " :: "n" :: "a" :: "m" :: "e" :: "s" :: "p"
                             :: "a" :: "c" :: "e" :: " " :: t)%char)
      by (cbn [List.length]; lia).
    rewrite firstn_all. cbn [string_of_list_ascii].
    unfold t. rewrite string_of_list_ascii_of_string. reflexivity. }
  unfold search. destruct (List.length s); rewrite Hrun; reflexivity.
Qed.

End RegexFacts.

Lemma pattern_of_new (S0 : string) :
  NamespaceCommentCheck.Regex_match
    (NamespaceCommentCheck.NamespaceCommentPattern
       (NamespaceCommentCheck.new
          (RX := NamespaceCommentCheck.Matcher.Interface)))
    S0
  = Regex.match_ NamespaceCommentCheck.CompiledPattern true S0.
Proof.
  change (match Regex.compile NamespaceCommentCheck.NamespaceCommentPattern_text
          with
          | Some Compiled => Regex.match_ Compiled true S0
          | None => None
          end
          = Regex.match_ NamespaceCommentCheck.CompiledPattern true S0).
  now rewrite NamespaceCommentPattern_compiles.
Qed.

Lemma generated_comment_groups (ND : NamespaceCommentCheck.NamespaceDecl) :
  NamespaceCommentCheck.isAnonymousNamespace ND = true
  \/ NamespaceCommentCheck.validName (NamespaceCommentCheck.getNameAsString ND) ->
  exists Groups : list string,
    Regex.match_ NamespaceCommentCheck.CompiledPattern true
                 (NamespaceCommentCheck.getNamespaceComment ND false)
    = Some Groups
    /\ List.length Groups = 7%nat
    /\ nth 5 Groups ""
       = (if NamespaceCommentCheck.isAnonymousNamespace ND then ""
          else NamespaceCommentCheck.getNameAsString ND).
Proof.
  intros Hname. unfold NamespaceCommentCheck.getNamespaceComment.
  destruct (NamespaceCommentCheck.isAnonymousNamespace ND) eqn:Hanon;
    cbn [negb].
  - eexists. split; [vm_compute; reflexivity|]. split; reflexivity.
  - destruct Hname as [Hn|Hvalid]; [discriminate Hn|].
    eexists. split; [apply (named_comment_groups _ Hvalid)|].
    split; reflexivity.
Qed.

(** X15: the closing comment that the check writes is recognised by the
    check's own pattern, and the pattern's name group gives back the name
    of the namespace: empty for an anonymous namespace, the name itself for
    a namespace whose name is made of letters, digits and underscores. *)
Theorem namespace_comment_roundtrip (ND : NamespaceCommentCheck.NamespaceDecl)
        (Hname : NamespaceCommentCheck.isAnonymousNamespace ND = true
                 \/ NamespaceCommentCheck.validName
                      (NamespaceCommentCheck.getNameAsString ND)) :
  exists Groups : list string,
    NamespaceCommentCheck.Regex_match
      (NamespaceCommentCheck.NamespaceCommentPattern
         (NamespaceCommentCheck.new
            (RX := NamespaceCommentCheck.Matcher.Interface)))
      (NamespaceCommentCheck.getNamespaceComment ND false)
    = Some Groups
    /\ List.length Groups = 7%nat
    /\ nth 5 Groups ""
       = (if NamespaceCommentCheck.isAnonymousNamespace ND then ""
          else NamespaceCommentCheck.getNameAsString ND).
Proof.
  destruct (generated_comment_groups ND Hname) as (Groups & Hrun & Hlen & H5).
  exists Groups. rewrite pattern_of_new.
  split; [exact Hrun|]. split; [exact Hlen|exact H5].
Qed.

Lemma namespace_comment_roundtrip_witness :
  exists Groups : list string,
    NamespaceCommentCheck.Regex_match
      (NamespaceCommentCheck.NamespaceCommentPattern
         (NamespaceCommentCheck.new
            (RX := NamespaceCommentCheck.Matcher.Interface)))
      "// namespace clang_tidy"
    = Some Groups
    /\ nth 5 Groups "" = "clang_tidy".
Proof.
  assert (Hvalid : NamespaceCommentCheck.validName "clang_tidy")
    by (split; [discriminate|reflexivity]).
  destruct (namespace_comment_roundtrip
              (NamespaceCommentCheck.mkNamespaceDecl
                 false "clang_tidy" (mkLoc "n.h" 0) (mkLoc "n.h" 9)
                 (mkLoc "n.h" 3))
              (or_intror Hvalid))
    as (Groups & Hrun & _ & Hname).
  exists Groups. split; [exact Hrun|exact Hname].
Defined.

(** ** What NamespaceCommentCheck reports *)

(** X16: a namespace whose closing brace is in another file than its start,
    or that spans no more than one line, is never reported, and the lexer
    is not even asked for the token after the brace. *)
Theorem short_namespace_not_reported
        {RX : NamespaceCommentCheck.RegexInterface}
        {SI : NamespaceCommentCheck.SourceInterface}
        (fuel : nat) (Sources : NamespaceCommentCheck.SourceManager)
        (ND : NamespaceCommentCheck.NamespaceDecl)
        (Hshort :
           NamespaceCommentCheck.locationsInSameFile
             Sources (NamespaceCommentCheck.getLocStart ND)
             (NamespaceCommentCheck.getRBraceLoc ND) = false
           \/ unsigned.wrap
                (NamespaceCommentCheck.getSpellingLineNumber
                   Sources (NamespaceCommentCheck.getRBraceLoc ND)
                 - NamespaceCommentCheck.getSpellingLineNumber
                     Sources (NamespaceCommentCheck.getLocStart ND)
                 + 1) <= 1) :
  NamespaceCommentCheck.check NamespaceCommentCheck.new fuel Sources ND
  = Some [].
Proof.
  unfold NamespaceCommentCheck.check.
  destruct (NamespaceCommentCheck.locationsInSameFile
              Sources (NamespaceCommentCheck.getLocStart ND)
              (NamespaceCommentCheck.getRBraceLoc ND)); cbn [negb];
    [|reflexivity].
  destruct Hshort as [H|H]; [discriminate H|].
  cbn [NamespaceCommentCheck.ShortNamespaceLines NamespaceCommentCheck.new].
  now rewrite (proj2 (Z.leb_le _ _) H).
Qed.


Lemma short_namespace_not_reported_witness :
  NamespaceCommentCheck.check
    (RX := NamespaceCommentCheck.Matcher.Interface)
    (SI := NamespaceCommentCheck.MiniSource.Interface)
    NamespaceCommentCheck.new 0 NamespaceScenario.oneLine
    NamespaceScenario.foo
  = Some [].
Proof.
  apply (short_namespace_not_reported
           (RX := NamespaceCommentCheck.Matcher.Interface)
           (SI := NamespaceCommentCheck.MiniSource.Interface)).
  right. vm_compute. discriminate.
Defined.


(** X18: a closing comment that names another namespace is replaced.  When
    the token after the brace, on the brace's line, is a line comment
    "// namespace <other>" and <other> is not the name of the namespace, the
    check reports once, at the comment, with <other> as the argument of the
    message, and offers to replace the comment, and nothing else, by the
    comment of the namespace, without a line break. *)
Theorem wrong_name_replaced
        {SI : NamespaceCommentCheck.SourceInterface}
        (fuel : nat) (Sources : NamespaceCommentCheck.SourceManager)
        (ND : NamespaceCommentCheck.NamespaceDecl)
        (Loc : SourceLocation) (Tok : NamespaceCommentCheck.Token)
        (Other : string)
        (Hsame : NamespaceCommentCheck.locationsInSameFile
                   Sources (NamespaceCommentCheck.getLocStart ND)
                   (NamespaceCommentCheck.getRBraceLoc ND) = true)
        (Hlong : 1 < unsigned.wrap
                       (NamespaceCommentCheck.getSpellingLineNumber
                          Sources (NamespaceCommentCheck.getRBraceLoc ND)
                        - NamespaceCommentCheck.getSpellingLineNumber
                            Sources (NamespaceCommentCheck.getLocStart ND)
                        + 1))
        (Hskip : NamespaceCommentCheck.skipToToken
                   fuel Sources
                   (getLocWithOffset (NamespaceCommentCheck.getRBraceLoc ND) 1)
                 = Some (Loc, Tok))
        (Hsame2 : NamespaceCommentCheck.locationsInSameFile
                    Sources (NamespaceCommentCheck.getRBraceLoc ND) Loc = true)
        (Hkind : NamespaceCommentCheck.getKind Tok
                 = NamespaceCommentCheck.comment)
        (Hline : NamespaceCommentCheck.getSpellingLineNumber Sources Loc
                 = NamespaceCommentCheck.getSpellingLineNumber
                     Sources (NamespaceCommentCheck.getRBraceLoc ND))
        (Htext : substring 0 (Z.to_nat (NamespaceCommentCheck.getLength Tok))
                           (NamespaceCommentCheck.getCharacterData Sources Loc)
                 = ("// namespace " ++ Other)%string)
        (Hvalid : NamespaceCommentCheck.validName Other)
        (Hdiff : NamespaceCommentCheck.getNameAsString ND <> Other) :
  NamespaceCommentCheck.check
    (RX := NamespaceCommentCheck.Matcher.Interface)
    NamespaceCommentCheck.new fuel Sources ND
  = Some [NamespaceCommentCheck.mkReport
            Loc "namespace closing comment refers to a wrong namespace '%0'"
            [Other]
            (CreateReplacement
               (Loc, getLocWithOffset Loc (NamespaceCommentCheck.getLength Tok))
               (NamespaceCommentCheck.getNamespaceComment ND false))].
Proof.
  unfold NamespaceCommentCheck.check.
  rewrite Hsame. cbn [negb].
  change (NamespaceCommentCheck.ShortNamespaceLines
            (NamespaceCommentCheck.new
               (RX := NamespaceCommentCheck.Matcher.Interface))) with 1.
  rewrite (proj2 (Z.leb_gt _ _) Hlong), Hskip, Hsame2. cbn [negb].
  unfold NamespaceCommentCheck.Token_is. rewrite Hkind, Hline, Z.eqb_refl.
  cbn [andb]. rewrite Htext.
  rewrite pattern_of_new, (named_comment_groups Other Hvalid).
  cbn [List.length Nat.leb nth].
  destruct Hvalid as [Hne _].
  rewrite (proj2 (String.eqb_neq Other "") Hne), andb_false_r.
  rewrite (proj2 (String.eqb_neq _ _) Hdiff). cbn [orb].
  reflexivity.
Qed.

Lemma wrong_name_replaced_witness :
  NamespaceScenario.run NamespaceScenario.commented NamespaceScenario.bar
  = Some [NamespaceCommentCheck.mkReport
            (mkLoc "n.h" 25)
            "namespace closing comment refers to a wrong namespace '%0'"
            ["foo"]
            (CreateReplacement (mkLoc "n.h" 25, mkLoc "n.h" 41)
                               "// namespace bar")].
Proof.
  apply (wrong_name_replaced
           (SI := NamespaceCommentCheck.MiniSource.Interface)
           8 NamespaceScenario.commented NamespaceScenario.bar
           (mkLoc "n.h" 25)
           (NamespaceCommentCheck.mkToken NamespaceCommentCheck.comment 16)
           "foo").
  - reflexivity.
  - vm_compute. reflexivity.
  - reflexivity.
  - reflexivity.
  - reflexivity.
  - reflexivity.
  - reflexivity.
  - split; [discriminate|reflexivity].
  - discriminate.
Defined.



(** X20: the token loop stops at the first location, going forward one
    character at a time from where it starts, at which the lexer answers a
    token; it stops exactly when there is one within [fuel] steps. *)
Theorem skipToToken_first
        {SI : NamespaceCommentCheck.SourceInterface}
        (fuel : nat) (Sources : NamespaceCommentCheck.SourceManager)
        (Start Loc : SourceLocation) (Tok : NamespaceCommentCheck.Token) :
  let forward (n : nat) :=
    Nat.iter n (fun L => getLocWithOffset L 1) Start in
  NamespaceCommentCheck.skipToToken fuel Sources Start = Some (Loc, Tok)
  <-> exists n : nat,
        (n <= fuel)%nat
        /\ Loc = forward n
        /\ NamespaceCommentCheck.getRawToken Sources Loc = Some Tok
        /\ (forall m : nat,
               (m < n)%nat ->
               NamespaceCommentCheck.getRawToken Sources (forward m) = None).
Proof.
  cbn zeta. revert Start.
  induction fuel as [|fuel IH]; intros Start;
    cbn [NamespaceCommentCheck.skipToToken].
  - split.
    + destruct (NamespaceCommentCheck.getRawToken Sources Start) as [T|] eqn:HT;
        [|discriminate].
      intros H. injection H as <- <-. exists O.
      split; [lia|]. split; [reflexivity|]. split; [exact HT|].
      intros m Hm. lia.
    + intros (n & Hn & -> & HT & _).
      assert (n = O) by lia. subst n. cbn [Nat.iter nat_rect] in *. now rewrite HT.
  - split.
    + destruct (NamespaceCommentCheck.getRawToken Sources Start) as [T|] eqn:HT.
      * intros H. injection H as <- <-. exists O.
        split; [lia|]. split; [reflexivity|]. split; [exact HT|].
        intros m Hm. lia.
      * intros H. apply IH in H.
        destruct H as (n & Hn & HL & HTok & Hbefore).
        exists (S n). split; [lia|].
        split;
          [rewrite HL; symmetry;
           exact (Nat.iter_succ_r n SourceLocation (fun L => getLocWithOffset L 1) Start)|].
        split; [exact HTok|].
        intros [|m] Hm; [exact HT|].
        rewrite (Nat.iter_succ_r m SourceLocation (fun L => getLocWithOffset L 1) Start).
        apply Hbefore. lia.
    + intros (n & Hn & HL & HTok & Hbefore).
      destruct n as [|n].
      * cbn [Nat.iter nat_rect] in HL. subst Loc. now rewrite HTok.
      * pose proof (Hbefore O ltac:(lia)) as Hfirst.
        cbn [Nat.iter nat_rect] in Hfirst. rewrite Hfirst. apply IH.
        exists n. split; [lia|].
        split;
          [rewrite HL;
           exact (Nat.iter_succ_r n SourceLocation (fun L => getLocWithOffset L 1) Start)|].
        split; [exact HTok|].
        intros m Hm.
        rewrite <- (Nat.iter_succ_r m SourceLocation (fun L => getLocWithOffset L 1) Start).
        apply Hbefore. lia.
Qed.

Lemma skipToToken_first_witness :
  NamespaceCommentCheck.skipToToken
    (SI := NamespaceCommentCheck.MiniSource.Interface)
    8 NamespaceScenario.bare (mkLoc "n.h" 24)
  = Some (mkLoc "n.h" 25,
          NamespaceCommentCheck.mkToken NamespaceCommentCheck.other 1).
Proof.
  apply (proj2 (skipToToken_first
                  (SI := NamespaceCommentCheck.MiniSource.Interface)
                  8 NamespaceScenario.bare (mkLoc "n.h" 24) (mkLoc "n.h" 25)
                  (NamespaceCommentCheck.mkToken
                     NamespaceCommentCheck.other 1))).
  exists 1%nat. split; [lia|]. split; [reflexivity|]. split; [reflexivity|].
  intros [|m] Hm; [reflexivity|lia].
Defined.

Lemma append_empty_r (s : string) : (s ++ "")%string = s.
Proof. induction s as [|c s IH]; cbn; [reflexivity|now rewrite IH]. Qed.

(** X21: code that follows the brace on its line is never swallowed by the
    inserted comment.  When the token after the brace is not a comment, the
    check reports the missing comment once, at the namespace, and inserts
    it right after the brace; the inserted text ends with a line break
    exactly when that token is on the brace's line and is not the end of
    the file. *)
Theorem inserted_comment_line_break
        {RX : NamespaceCommentCheck.RegexInterface}
        {SI : NamespaceCommentCheck.SourceInterface}
        (fuel : nat) (Sources : NamespaceCommentCheck.SourceManager)
        (ND : NamespaceCommentCheck.NamespaceDecl)
        (Loc : SourceLocation) (Tok : NamespaceCommentCheck.Token)
        (Hsame : NamespaceCommentCheck.locationsInSameFile
                   Sources (NamespaceCommentCheck.getLocStart ND)
                   (NamespaceCommentCheck.getRBraceLoc ND) = true)
        (Hlong : 1 < unsigned.wrap
                       (NamespaceCommentCheck.getSpellingLineNumber
                          Sources (NamespaceCommentCheck.getRBraceLoc ND)
                        - NamespaceCommentCheck.getSpellingLineNumber
                            Sources (NamespaceCommentCheck.getLocStart ND)
                        + 1))
        (Hskip : NamespaceCommentCheck.skipToToken
                   fuel Sources
                   (getLocWithOffset (NamespaceCommentCheck.getRBraceLoc ND) 1)
                 = Some (Loc, Tok))
        (Hsame2 : NamespaceCommentCheck.locationsInSameFile
                    Sources (NamespaceCommentCheck.getRBraceLoc ND) Loc = true)
        (Hkind : NamespaceCommentCheck.getKind Tok
                 <> NamespaceCommentCheck.comment) :
  let SameLine :=
    NamespaceCommentCheck.getSpellingLineNumber Sources Loc
    =? NamespaceCommentCheck.getSpellingLineNumber
         Sources (NamespaceCommentCheck.getRBraceLoc ND) in
  let LineBreak :=
    SameLine
    && negb (NamespaceCommentCheck.Token_is Tok NamespaceCommentCheck.eof) in
  NamespaceCommentCheck.check NamespaceCommentCheck.new fuel Sources ND
  = Some [NamespaceCommentCheck.mkReport
            (NamespaceCommentCheck.getLocation ND)
            "namespace not terminated with a closing comment" []
            (CreateReplacement
               (getLocWithOffset (NamespaceCommentCheck.getRBraceLoc ND) 1,
                getLocWithOffset (NamespaceCommentCheck.getRBraceLoc ND) 1)
               (" // namespace"
                  ++ (if NamespaceCommentCheck.isAnonymousNamespace ND then ""
                      else " " ++ NamespaceCommentCheck.getNameAsString ND)
                  ++ (if LineBreak then String "010" "" else ""))%string)].
Proof.
  cbn zeta. unfold NamespaceCommentCheck.check.
  rewrite Hsame. cbn [negb].
  change (NamespaceCommentCheck.ShortNamespaceLines NamespaceCommentCheck.new)
    with 1.
  rewrite (proj2 (Z.leb_gt _ _) Hlong), Hskip, Hsame2. cbn [negb].
  assert (Hc : NamespaceCommentCheck.Token_is Tok NamespaceCommentCheck.comment
               = false).
  { unfold NamespaceCommentCheck.Token_is.
    destruct (NamespaceCommentCheck.getKind Tok); congruence. }
  rewrite Hc. cbn [andb].
  unfold NamespaceCommentCheck.getNamespaceComment,
    NamespaceCommentCheck.CreateInsertion.
  destruct (NamespaceCommentCheck.isAnonymousNamespace ND); cbn [negb];
    destruct (_ && _); cbn [append]; rewrite ?append_empty_r; reflexivity.
Qed.

Lemma inserted_comment_line_break_witness :
  NamespaceScenario.run NamespaceScenario.crowded NamespaceScenario.foo
  = Some [NamespaceCommentCheck.mkReport
            (mkLoc "n.h" 10)
            "namespace not terminated with a closing comment" []
            (CreateReplacement (mkLoc "n.h" 24, mkLoc "n.h" 24)
                               (" // namespace foo" ++ String "010" ""))]
  /\ NamespaceScenario.run NamespaceScenario.bare NamespaceScenario.foo
     = Some [NamespaceCommentCheck.mkReport
               (mkLoc "n.h" 10)
               "namespace not terminated with a closing comment" []
               (CreateReplacement (mkLoc "n.h" 24, mkLoc "n.h" 24)
                                  " // namespace foo")].
Proof.
  split.
  - apply (inserted_comment_line_break
             (RX := NamespaceCommentCheck.Matcher.Interface)
             (SI := NamespaceCommentCheck.MiniSource.Interface)
             8 NamespaceScenario.crowded NamespaceScenario.foo
             (mkLoc "n.h" 25)
             (NamespaceCommentCheck.mkToken NamespaceCommentCheck.other 1));
      first [reflexivity|discriminate|vm_compute; reflexivity].
  - apply (inserted_comment_line_break
             (RX := NamespaceCommentCheck.Matcher.Interface)
             (SI := NamespaceCommentCheck.MiniSource.Interface)
             8 NamespaceScenario.bare NamespaceScenario.foo
             (mkLoc "n.h" 25)
             (NamespaceCommentCheck.mkToken NamespaceCommentCheck.other 1));
      first [reflexivity|discriminate|vm_compute; reflexivity].
Defined.
